(** * iTAV forecasting engine: a shallow embedding and its properties

    The development follows [src/forecasting/services/forecast_engine.py]
    together with the schema, cache and configuration modules it uses.

    Number model.  Python [int] is [Z].  Python [float] is idealised as an
    exact rational ([Q]): rounding is not modelled, so statements about a
    float result are statements about the exact value the expression
    denotes.  The one place where the source itself reacts to the finite
    range of binary64, the [except (OverflowError, ZeroDivisionError)] of
    [_erlang_c_probability], is modelled with explicit range checks and an
    error monad.  [calculate_accuracy_metrics] is about IEEE special values
    (infinity and NaN); it is embedded over the kernel's binary64 floats,
    whose [+ - * / sqrt] are the operations numpy applies.

    Library routines that are not part of the repository ([math.exp], the
    float [repr], [hashlib.md5], statsmodels, scikit-learn, pandas) are
    parameters: a section variable for [math.exp] in the staffing model,
    the record [Libraries] in the engine.  numpy's global random generator
    and the clock are explicit state.  [np.percentile] and [np.sum] are
    written out from their documented behaviour. *)

From Stdlib Require Import ZArith QArith Qround Qabs Qpower Lia Lqa.
From Stdlib Require Import PrimFloat.
From stdpp Require Import gmap strings list sorting pretty.

(** ** Python exceptions as an error monad *)

Inductive PyExc : Set :=
  | OverflowError | ZeroDivisionError | ValueError
  | KeyError | IndexError | TypeError.

Inductive res (A : Type) : Type :=
  | Ok (a : A)
  | Raise (e : PyExc).
Arguments Ok {A} a.
Arguments Raise {A} e.

#[global] Instance res_ret : MRet res := fun A a => Ok a.
#[global] Instance res_bind : MBind res := fun A B f m =>
  match m with Ok a => f a | Raise e => Raise e end.

Definition is_ok {A} (m : res A) : bool :=
  match m with Ok _ => true | Raise _ => false end.

(** A dictionary or list access that raises when the entry is missing. *)
Definition getitem {A} (e : PyExc) (o : option A) : res A :=
  match o with Some a => Ok a | None => Raise e end.

(** ** Floats as rationals *)

Module PyFloat.
Local Open Scope Q_scope.

Definition Qlt_bool (x y : Q) : bool := negb (Qle_bool y x).

(** The least magnitude that rounds to infinity in binary64: half an ulp
    above the largest finite double, [2^1024 - 2^970]. *)
Definition OVERFLOW_THRESHOLD : Z := (2 ^ 1024 - 2 ^ 970)%Z.

Definition float_fits (x : Q) : bool :=
  Qlt_bool (Qabs x) (inject_Z OVERFLOW_THRESHOLD).

(** [float(n)] as done implicitly when an int meets a float: raises
    "int too large to convert to float". *)
Definition float_of_int (n : Z) : res Q :=
  if float_fits (inject_Z n) then Ok (inject_Z n) else Raise OverflowError.

(** [x ** n] for a float [x] and an int [n]: "Numerical result out of
    range" when the power leaves the range, and a zero base with a negative
    exponent cannot be raised. *)
Definition float_pow (x : Q) (n : Z) : res Q :=
  if (Qeq_bool x 0 && (n <? 0)%Z)%bool then Raise ZeroDivisionError
  else let r := x ^ n in
       if float_fits r then Ok r else Raise OverflowError.

(** [x / y] on floats. *)
Definition float_div (x y : Q) : res Q :=
  if Qeq_bool y 0 then Raise ZeroDivisionError else Ok (x / y).

(** [int(x)]: truncation towards zero. *)
Definition int_of_float (x : Q) : Z :=
  if Qle_bool 0 x then Qfloor x else Qceiling x.

(** [math.factorial]. *)
Fixpoint fact_Z (n : nat) : Z :=
  match n with
  | O => 1
  | S k => Z.of_nat (S k) * fact_Z k
  end%Z.

Definition math_factorial (n : Z) : res Z :=
  if (n <? 0)%Z then Raise ValueError else Ok (fact_Z (Z.to_nat n)).

(** [range(n)] and [range(a, b)] over ints. *)
Definition range (n : Z) : list Z := List.map Z.of_nat (seq 0 (Z.to_nat n)).
Definition range_from (a b : Z) : list Z :=
  List.map (fun i => (a + Z.of_nat i)%Z) (seq 0 (Z.to_nat (b - a))).

(** A rational stand-in for [math.exp], used only where the model is
    evaluated at a concrete input: the Taylor polynomial of degree [n] on
    the non-negative side and its reciprocal on the negative side. *)
Fixpoint exp_poly (n : nat) (y : Q) : Q :=
  match n with
  | O => 1
  | S k => Qred (exp_poly k y + y ^ Z.of_nat (S k) / inject_Z (fact_Z (S k)))
  end.

Definition exp_series (x : Q) : Q :=
  let x := Qred x in
  if Qle_bool 0 x then exp_poly 30 x else / exp_poly 30 (- x).

End PyFloat.

(** ** class ErlangCStaffingModel *)

Module ErlangCStaffingModel.
Import PyFloat.
Local Open Scope Q_scope.

(** [sum(traffic ** k / math.factorial(k) for k in range(agents))]:
    the generator is consumed left to right, starting from 0. *)
Fixpoint sum_terms (traffic : Q) (ks : list Z) (acc : Q) : res Q :=
  match ks with
  | [] => Ok acc
  | k :: ks' =>
      p ← float_pow traffic k;
      f ← math_factorial k;
      ff ← float_of_int f;
      t ← float_div p ff;
      sum_terms traffic ks' (acc + t)
  end.

(** [traffic ** agents / math.factorial(agents) * (agents / (agents - traffic))] *)
Definition last_term (agents : Z) (traffic : Q) : res Q :=
  p ← float_pow traffic agents;
  f ← math_factorial agents;
  ff ← float_of_int f;
  t ← float_div p ff;
  a ← float_of_int agents;
  r ← float_div a (a - traffic);
  Ok (t * r).

(** The body of the [try]. *)
Definition erlang_c_try (agents : Z) (traffic : Q) : res Q :=
  numerator ← last_term agents traffic;
  denominator ← sum_terms traffic (range agents) 0;
  extra ← last_term agents traffic;
  float_div numerator (denominator + extra).

(** [_erlang_c_probability]: the handler turns an overflow or a division by
    zero into the value 0.0; any other exception propagates. *)
Definition _erlang_c_probability (agents : Z) (traffic : Q) : res Q :=
  match erlang_c_try agents traffic with
  | Ok p => Ok p
  | Raise OverflowError | Raise ZeroDivisionError => Ok 0
  | Raise e => Raise e
  end.

Section calculate.
(** [math.exp], on floats. *)
Variable exp : Q -> Q.

Section search.
Variables (traffic_intensity avg_handle_time target_service_level : Q).
Variable target_answer_time : Z.

Definition prob_within_target_of (agents : Z) (erlang_c_prob : Q) : Q :=
  1 - erlang_c_prob *
      exp (- (inject_Z agents - traffic_intensity)
           * inject_Z target_answer_time / avg_handle_time).

(** The [for _ in range(max_iterations)] loop.  [last] is the binding of
    the local [prob_within_target], absent until the first evaluation. *)
Fixpoint search (fuel : nat) (agents : Z) (last : option Q)
  : res (Z * option Q) :=
  match fuel with
  | O => Ok (agents, last)
  | S fuel' =>
      if Qle_bool (inject_Z agents) traffic_intensity
      then search fuel' (agents + 1)%Z last
      else
        erlang_c_prob ← _erlang_c_probability agents traffic_intensity;
        let prob_within_target := prob_within_target_of agents erlang_c_prob in
        if Qle_bool target_service_level prob_within_target
        then Ok (agents, Some prob_within_target)
        else search fuel' (agents + 1)%Z (Some prob_within_target)
  end.
End search.

Definition max_iterations : nat := 100.

Definition calculate_required_agents
    (call_volume : Z) (avg_handle_time : Q)
    (target_service_level : Q) (target_answer_time : Z)
  : res (Z * Q * Q) :=
  if ((call_volume <=? 0)%Z || Qle_bool avg_handle_time 0)%bool
  then Ok (0%Z, 0, 0)
  else
    let traffic_intensity := inject_Z call_volume * avg_handle_time / 60 in
    if Qle_bool traffic_intensity 0 then Ok (1%Z, 0, 1)
    else
      let agents := Z.max 1 (Qceiling traffic_intensity) in
      '(agents, last) ←
        search traffic_intensity avg_handle_time target_service_level
               target_answer_time max_iterations agents None;
      let utilization :=
        if (0 <? agents)%Z then traffic_intensity / inject_Z agents else 0 in
      let achieved_service_level :=
        match last with Some p => p | None => 0 end in
      Ok (agents, utilization, achieved_service_level).

End calculate.

(** The Erlang-C probability of queueing for [agents] servers and an
    offered load of [traffic] Erlangs, as the textbook states it. *)
Definition erlang_term (traffic : Q) (k : Z) : Q :=
  traffic ^ k / inject_Z (fact_Z (Z.to_nat k)).

Definition erlang_c_formula (agents : Z) (traffic : Q) : Q :=
  let top :=
    erlang_term traffic agents * (inject_Z agents / (inject_Z agents - traffic)) in
  top / (fold_right Qplus 0 (List.map (erlang_term traffic) (range agents)) + top).

(** The probability of an answer within the target time, with the exact
    Erlang-C value. *)
Definition exact_service_level (exp : Q -> Q) (traffic aht : Q) (tat : Z) (agents : Z) : Q :=
  1 - erlang_c_formula agents traffic *
      exp (- (inject_Z agents - traffic) * inject_Z tat / aht).

End ErlangCStaffingModel.

(** ** Python dictionaries whose iteration order matters

    A [dict] iterated by the source is an association list in insertion
    order; a [dict] that is only looked up is a [gmap]. *)

Module PyDict.
Local Open Scope Q_scope.

Definition contains {V} (d : list (string * V)) (k : string) : bool :=
  existsb (fun kv => String.eqb kv.1 k) d.

Fixpoint get {V} (d : list (string * V)) (k : string) : option V :=
  match d with
  | [] => None
  | (k', v) :: d' => if String.eqb k' k then Some v else get d' k
  end.

(** [d[k] = f(d[k])] for a key that is present. *)
Definition alter {V} (f : V -> V) (k : string) (d : list (string * V))
  : list (string * V) :=
  List.map (fun kv => if String.eqb kv.1 k then (kv.1, f kv.2) else kv) d.

Definition values {V} (d : list (string * V)) : list V := List.map snd d.

(** [sum(xs)]: from 0, left to right. *)
Definition sum (xs : list Q) : Q := fold_left Qplus xs 0.

End PyDict.

(** ** core/config.py *)

Module Settings.
Local Open Scope Q_scope.

Record SeasonalPeriod := {
  months : list Z;
  call_multiplier : Q;
  complexity_increase : Q
}.

Definition MEDICARE_SEASONAL_FACTORS : list (string * SeasonalPeriod) :=
  [ ("AEP_period",
     {| months := [10; 11; 12]%Z; call_multiplier := 2.1; complexity_increase := 1.4 |});
    ("plan_year_start",
     {| months := [1]%Z; call_multiplier := 1.6; complexity_increase := 1.2 |});
    ("summer_lull",
     {| months := [6; 7; 8]%Z; call_multiplier := 0.75; complexity_increase := 0.9 |}) ].

Definition SEGMENT_CALL_RATES : gmap string Q :=
  <["Highly Engaged" := 85]>
  (<["Reactive Engagers" := 145]>
  (<["Content & Complacent" := 95]>
  (<["Unengaged" := 180]> ∅))).

Definition CACHE_TTL : Z := 3600.

End Settings.

(** ** schemas/forecast.py *)

Record SegmentAdjustments := {
  highly_engaged : Q;
  reactive_engagers : Q;
  content_complacent : Q;
  unengaged : Q
}.

Record CallVolumeFactors := {
  seasonal_factor : Q;
  engagement_impact : Q;
  product_mix_impact : Q;
  regulatory_impact : Q
}.

Record StaffingParameters := {
  avg_handle_time : Q;
  hours_per_agent : Z;
  utilization_target : Q;
  supervisor_ratio : Q;
  target_service_level : Q;
  target_answer_time : Z
}.

Record RegulatoryChanges := {
  benefit_changes : bool;
  formulary_updates : bool;
  network_changes : bool;
  premium_changes : bool
}.

Record date := { year : Z; month : Z; day : Z }.

Record ForecastScenarioCreate := {
  name : string;
  description : option string;
  base_month : date;
  forecast_months : Z;
  member_growth_rate : Q;
  segment_adjustments : SegmentAdjustments;
  call_volume_factors : CallVolumeFactors;
  staffing_parameters : StaffingParameters;
  regulatory_changes : RegulatoryChanges;
  monte_carlo_iterations : Z;
  confidence_level : Q
}.

Record ForecastResult := {
  fr_month : string;
  predicted_members : Z;
  predicted_calls : Z;
  calls_per_member : Q;
  required_staff : Z;
  required_supervisors : Z;
  agent_utilization : Q;
  service_level : Q;
  members_confidence : option (gmap string Z);
  calls_confidence : option (gmap string Z);
  staff_confidence : option (gmap string Z)
}.

(** ** class SegmentImpactModel *)

Module SegmentImpactModel.
Local Open Scope Q_scope.

Record t := { segment_call_rates : gmap string Q }.

Definition __init__ : t :=
  {| segment_call_rates := Settings.SEGMENT_CALL_RATES |}.

Definition adjustment_map (a : SegmentAdjustments) : gmap string Q :=
  <["Highly Engaged" := highly_engaged a]>
  (<["Reactive Engagers" := reactive_engagers a]>
  (<["Content & Complacent" := content_complacent a]>
  (<["Unengaged" := unengaged a]> ∅))).

Definition calculate_segment_impact (self : t)
    (member_distribution : list (string * Q))
    (segment_adjustments : SegmentAdjustments) : Q :=
  let total_members := PyDict.sum (PyDict.values member_distribution) in
  if Qeq_bool total_members 0 then 0
  else
    let adjustment_map := adjustment_map segment_adjustments in
    let total_weighted_rate :=
      fold_left
        (fun total_weighted_rate '(segment, members) =>
           let base_rate := default 120 (segment_call_rates self !! segment) in
           let adjustment := default 0 (adjustment_map !! segment) in
           let adjusted_rate := base_rate * (1 + adjustment / 100) in
           let weight := members / total_members in
           total_weighted_rate + adjusted_rate * weight)
        member_distribution 0 in
    total_weighted_rate / 1000.

(** The calls-per-member rate in the words of the specification: each
    segment's base rate per 1000, adjusted by its percentage, weighted by
    the segment's share of the members, summed and divided by 1000. *)
Definition adjustment_pct (a : SegmentAdjustments) (segment : string) : Q :=
  if String.eqb segment "Highly Engaged" then highly_engaged a
  else if String.eqb segment "Reactive Engagers" then reactive_engagers a
  else if String.eqb segment "Content & Complacent" then content_complacent a
  else if String.eqb segment "Unengaged" then unengaged a
  else 0.

Definition base_rate_per_1000 (rates : gmap string Q) (segment : string) : Q :=
  match rates !! segment with Some r => r | None => 120 end.

Definition total_of (dist : list (string * Q)) : Q :=
  fold_right Qplus 0 (List.map snd dist).

Definition segment_impact_reference (rates : gmap string Q)
    (dist : list (string * Q)) (a : SegmentAdjustments) : Q :=
  fold_right Qplus 0
    (List.map (fun sm => base_rate_per_1000 rates sm.1
                         * (1 + adjustment_pct a sm.1 / 100)
                         * (sm.2 / total_of dist)) dist)
  / 1000.

End SegmentImpactModel.

(** ** class AdaptiveForecastModel *)

Module AdaptiveForecastModel.
Import PyFloat.
Local Open Scope Q_scope.

(** The attribute [model_weights] set by [__init__]. *)
Definition __init__ : list (string * Q) :=
  [ ("seasonal", 0.4); ("trend", 0.3); ("growth", 0.2); ("ml_prediction", 0.1) ].

Definition _calculate_component_errors (accuracy_data : gmap string Q)
  : list (string * Q) :=
  [ ("seasonal", default 0.1 (accuracy_data !! "seasonal_error"));
    ("trend", default 0.1 (accuracy_data !! "trend_error"));
    ("growth", default 0.1 (accuracy_data !! "growth_error"));
    ("ml_prediction", default 0.1 (accuracy_data !! "ml_error")) ].

Definition adjust (model_weights : list (string * Q)) (ce : string * Q)
  : list (string * Q) :=
  let '(component, error) := ce in
  if PyDict.contains model_weights component then
    if Qlt_bool error 0.05 then PyDict.alter (fun w => w * 1.1) component model_weights
    else if Qlt_bool 0.15 error then PyDict.alter (fun w => w * 0.9) component model_weights
    else model_weights
  else model_weights.

Definition update_weights (model_weights : list (string * Q))
    (recent_accuracy : gmap string Q) : list (string * Q) :=
  let component_errors := _calculate_component_errors recent_accuracy in
  let model_weights := fold_left adjust component_errors model_weights in
  let total_weight := PyDict.sum (PyDict.values model_weights) in
  if Qlt_bool 0 total_weight
  then List.map (fun kv => (kv.1, kv.2 / total_weight)) model_weights
  else model_weights.

End AdaptiveForecastModel.

(** ** numpy: percentiles along the first axis

    [np.percentile(arr, q, axis=0)] with the default linear method, for a
    two-dimensional integer array given as the list of its rows. *)

Module Numpy.
Local Open Scope Q_scope.

Definition item (arr : list Z) (i : Z) : Q := inject_Z (nth (Z.to_nat i) arr 0%Z).

(** [_lerp(a, b, t)]: [a + (b - a) * t], recomputed from [b] where
    [t >= 0.5]. *)
Definition _lerp (a b t : Q) : Q :=
  let diff_b_a := b - a in
  if Qle_bool 0.5 t then b - diff_b_a * (1 - t) else a + diff_b_a * t.

(** The interpolation at a virtual index of a sorted array. *)
Definition interpolate (arr : list Z) (virtual_index : Q) : Q :=
  let values_count := Z.of_nat (length arr) in
  (* indexes at or above the last one are set to the last one *)
  let above_bounds := Qle_bool (inject_Z (values_count - 1)) virtual_index in
  let previous_index :=
    if above_bounds then (values_count - 1)%Z else Qfloor virtual_index in
  let next_index :=
    if above_bounds then (values_count - 1)%Z else (Qfloor virtual_index + 1)%Z in
  let gamma := virtual_index - inject_Z (Qfloor virtual_index) in
  _lerp (item arr previous_index) (item arr next_index) gamma.

Definition percentile (sample : list Z) (q : Q) : Q :=
  let arr := merge_sort Z.le sample in
  let values_count := Z.of_nat (length arr) in
  let virtual_index := inject_Z (values_count - 1) * (q / 100) in
  interpolate arr virtual_index.

Definition column (arr : list (list Z)) (j : nat) : list Z :=
  List.map (fun row => nth j row 0%Z) arr.

Definition percentile_axis0 (arr : list (list Z)) (q : Q) : list Q :=
  match arr with
  | [] => []
  | row :: _ => List.map (fun j => percentile (column arr j) q) (seq 0 (length row))
  end.

End Numpy.

(** ** class MonteCarloSimulator *)

(** A value of a [Dict[str, Any]] scenario: an int or a float. *)
Inductive pyval : Type :=
  | PyInt (n : Z)
  | PyFloat (x : Q).

Definition to_Q (v : pyval) : Q :=
  match v with PyInt n => inject_Z n | PyFloat x => x end.

(** The state of numpy's global generator: the samples still to come.
    [np.random.normal(loc, scale)] hands out the next one. *)
Definition rng_state := nat -> Q.

Definition normal (rng : rng_state) : Q * rng_state :=
  (rng O, fun n => rng (S n)).

Module MonteCarloSimulator.
Import PyFloat.
Local Open Scope Q_scope.

Definition metrics : list string :=
  ["predicted_members"; "predicted_calls"; "required_staff"].

(** [range(1, months + 1)] needs an int. *)
Definition as_int (v : pyval) : res Z :=
  match v with PyInt n => Ok n | PyFloat _ => Raise TypeError end.

Definition _single_iteration (scenario : gmap string pyval)
  : res (gmap string (list Z)) :=
  months ← as_int (default (PyInt 12) (scenario !! "forecast_months"));
  let base_members := to_Q (default (PyInt 10000) (scenario !! "base_members")) in
  let growth_rate :=
    to_Q (default (PyFloat 2.5) (scenario !! "member_growth_rate")) / 100 in
  let members_of (month : Z) : Z :=
    int_of_float (base_members * (1 + growth_rate) ^ month) in
  let calls_of (month : Z) : Z :=
    int_of_float (inject_Z (members_of month)
                  * to_Q (default (PyFloat 0.15) (scenario !! "calls_per_member"))) in
  let staff_of (month : Z) : Z :=
    Z.max 1 (int_of_float
               (inject_Z (calls_of month)
                * to_Q (default (PyFloat 6.2) (scenario !! "avg_handle_time"))
                / 8000)) in
  let months_range := range_from 1 (months + 1) in
  Ok (<["predicted_members" := List.map members_of months_range]>
      (<["predicted_calls" := List.map calls_of months_range]>
      (<["required_staff" := List.map staff_of months_range]> ∅))).

(** [d[k] = f(d[k])]: a [KeyError] when the key is missing. *)
Definition update_item (k : string) (f : Q -> Q) (d : gmap string pyval)
  : res (gmap string pyval) :=
  v ← getitem KeyError (d !! k);
  Ok (<[k := PyFloat (f (to_Q v))]> d).

(** One pass of the [for _ in range(iterations)] loop. *)
Definition iteration (base_scenario : gmap string pyval)
    (st : gmap string (list (list Z)) * rng_state)
  : res (gmap string (list (list Z)) * rng_state) :=
  let '(results, rng) := st in
  let '(growth_rate_var, rng) := normal rng in
  let '(seasonality_var, rng) := normal rng in
  let '(handle_time_var, rng) := normal rng in
  let modified_scenario := base_scenario in
  modified_scenario ←
    update_item "member_growth_rate" (fun x => x + growth_rate_var) modified_scenario;
  modified_scenario ←
    update_item "seasonality_factor" (fun x => x * seasonality_var) modified_scenario;
  modified_scenario ←
    update_item "avg_handle_time" (fun x => x * handle_time_var) modified_scenario;
  iteration_result ← _single_iteration modified_scenario;
  let results :=
    map_imap (fun key values =>
                match iteration_result !! key with
                | Some row => Some (values ++ [row])
                | None => Some values
                end) results in
  Ok (results, rng).

Fixpoint iterate (base_scenario : gmap string pyval) (n : nat)
    (st : gmap string (list (list Z)) * rng_state)
  : res (gmap string (list (list Z)) * rng_state) :=
  match n with
  | O => Ok st
  | S n' => st' ← iteration base_scenario st; iterate base_scenario n' st'
  end.

Definition bands (values : list (list Z)) : gmap string (list Q) :=
  <["p10" := Numpy.percentile_axis0 values 10]>
  (<["p25" := Numpy.percentile_axis0 values 25]>
  (<["median" := Numpy.percentile_axis0 values 50]>
  (<["p75" := Numpy.percentile_axis0 values 75]>
  (<["p90" := Numpy.percentile_axis0 values 90]> ∅)))).

Definition empty_results : gmap string (list (list Z)) :=
  <["predicted_members" := []]>
  (<["predicted_calls" := []]>
  (<["required_staff" := []]> ∅)).

Definition run_forecast_simulation (base_scenario : gmap string pyval)
    (iterations : Z) (rng : rng_state)
  : res (gmap string (gmap string (list Q)) * rng_state) :=
  st ← iterate base_scenario (Z.to_nat iterations) (empty_results, rng);
  let '(results, rng) := st in
  let percentile_results : gmap string (gmap string (list Q)) :=
    omap (fun values => match values with
                        | [] => None
                        | _ => Some (bands values)
                        end) results in
  Ok (percentile_results, rng).

End MonteCarloSimulator.

(** ** ForecastEngine._apply_confidence_intervals *)

Module ConfidenceIntervals.
Import PyFloat.
Local Open Scope Q_scope.

(** [int(confidence_intervals[metric][p][i])] *)
Definition band_at (confidence_intervals : gmap string (gmap string (list Q)))
    (metric p : string) (i : nat) : res Z :=
  m ← getitem KeyError (confidence_intervals !! metric);
  arr ← getitem KeyError (m !! p);
  x ← getitem IndexError (arr !! i);
  Ok (int_of_float x).

Definition confidence_dict (confidence_intervals : gmap string (gmap string (list Q)))
    (metric : string) (i : nat) : res (gmap string Z) :=
  p10 ← band_at confidence_intervals metric "p10" i;
  p25 ← band_at confidence_intervals metric "p25" i;
  p75 ← band_at confidence_intervals metric "p75" i;
  p90 ← band_at confidence_intervals metric "p90" i;
  Ok (<["p10" := p10]> (<["p25" := p25]> (<["p75" := p75]> (<["p90" := p90]> ∅)))).

Definition set_confidence (result : ForecastResult)
    (m c s : gmap string Z) : ForecastResult :=
  {| fr_month := fr_month result;
     predicted_members := predicted_members result;
     predicted_calls := predicted_calls result;
     calls_per_member := calls_per_member result;
     required_staff := required_staff result;
     required_supervisors := required_supervisors result;
     agent_utilization := agent_utilization result;
     service_level := service_level result;
     members_confidence := Some m;
     calls_confidence := Some c;
     staff_confidence := Some s |}.

(** [len(confidence_intervals.get('predicted_members', {}).get('p25', []))] *)
Definition simulated_months (confidence_intervals : gmap string (gmap string (list Q)))
  : nat :=
  length (default [] (default ∅ (confidence_intervals !! "predicted_members") !! "p25")).

(** The loop over [enumerate(forecast_results)], from index [i]. *)
Fixpoint apply_from (confidence_intervals : gmap string (gmap string (list Q)))
    (i : nat) (forecast_results : list ForecastResult)
  : res (list ForecastResult) :=
  match forecast_results with
  | [] => Ok []
  | result :: rest =>
      result ←
        (if (i <? simulated_months confidence_intervals)%nat then
           m ← confidence_dict confidence_intervals "predicted_members" i;
           c ← confidence_dict confidence_intervals "predicted_calls" i;
           s ← confidence_dict confidence_intervals "required_staff" i;
           Ok (set_confidence result m c s)
         else Ok result);
      rest ← apply_from confidence_intervals (S i) rest;
      Ok (result :: rest)
  end.

Definition _apply_confidence_intervals (forecast_results : list ForecastResult)
    (confidence_intervals : gmap string (gmap string (list Q)))
  : res (list ForecastResult) :=
  apply_from confidence_intervals 0 forecast_results.

End ConfidenceIntervals.

(** ** core/cache.py *)

Module CacheManager.

(** Redis is switched off in the source; no in-memory store stands in. *)
Definition REDIS_AVAILABLE : bool := false.

(** [redis] is the connection, seen as the key-value store behind it;
    expiry of entries is not modelled. *)
Record t (V : Type) := {
  redis : option (gmap string V);
  default_ttl : Z;
  enabled : bool
}.
Arguments redis {V} _.
Arguments default_ttl {V} _.
Arguments enabled {V} _.

Definition __init__ {V} : t V :=
  {| redis := None; default_ttl := Settings.CACHE_TTL; enabled := REDIS_AVAILABLE |}.

(** [if not self.enabled or not self.redis: return None] *)
Definition get {V} (self : t V) (key : string) : option V :=
  if negb (enabled self) then None
  else match redis self with
       | None => None
       | Some store => store !! key
       end.

Definition setex {V} (self : t V) (key : string) (v : V) : t V :=
  if negb (enabled self) then self
  else match redis self with
       | None => self
       | Some store =>
           {| redis := Some (<[key := v]> store);
              default_ttl := default_ttl self; enabled := enabled self |}
       end.

Definition get_forecast_result {V} (self : t V) (scenario_hash : string) : option V :=
  get self ("forecast:" ++ scenario_hash).
Definition cache_forecast_result {V} (self : t V) (scenario_hash : string) (result : V) : t V :=
  setex self ("forecast:" ++ scenario_hash) result.
Definition get_seasonal_patterns {V} (self : t V) (data_hash : string) : option V :=
  get self ("seasonal:" ++ data_hash).
Definition cache_seasonal_patterns {V} (self : t V) (data_hash : string) (patterns : V) : t V :=
  setex self ("seasonal:" ++ data_hash) patterns.

End CacheManager.

(** ** class ForecastEngine *)

(** A row of the historical data frame. *)
Record HistoricalObservation := {
  h_date : date;
  total_members : Q;
  total_calls : Q;
  h_avg_handle_time : Q
}.

(** The routines of other packages that the engine calls. *)
Record Libraries := {
  (** [math.exp] *)
  math_exp : Q -> Q;
  (** [repr] of a float, as f-strings and pydantic print it *)
  float_repr : Q -> string;
  (** [hashlib.md5(s.encode()).hexdigest()] *)
  md5_hexdigest : string -> string;
  (** [str(data.values.tobytes())] of a data frame *)
  data_bytes : list HistoricalObservation -> string;
  (** the rows that scikit-learn's isolation forest flags, by index *)
  isolation_forest : list HistoricalObservation -> list nat;
  (** the seasonal indices of [SeasonalDecompositionModel.fit], which
      rests on statsmodels' [seasonal_decompose] *)
  seasonal_fit : list HistoricalObservation -> gmap Z Q;
  (** [_calculate_data_quality_score], which rests on pandas' null counts
      and quantiles *)
  data_quality : list HistoricalObservation -> Q
}.

Record Metadata := {
  computation_time : Q;
  anomaly_count : Z;
  data_quality_score : Q;
  md_model_weights : list (string * Q)
}.

(** What the cache stores: a forecast with its metadata, or a seasonal
    decomposition. *)
Inductive cache_value : Type :=
  | CachedForecast (results : list ForecastResult) (metadata : Metadata)
  | CachedSeasonal (seasonal_indices : gmap Z Q).

Module ForecastEngine.
Import PyFloat.
Local Open Scope Q_scope.

(** The engine with what it reads from the process: the adaptive weights,
    the cache manager, numpy's global generator and the clock behind
    [time.time()]. *)
Record t := {
  model_weights : list (string * Q);
  cache_manager : CacheManager.t cache_value;
  np_random : rng_state;
  clock : nat -> Q
}.

Definition __init__ (rng : rng_state) (clock : nat -> Q) : t :=
  {| model_weights := AdaptiveForecastModel.__init__;
     cache_manager := CacheManager.__init__;
     np_random := rng; clock := clock |}.

Definition time_time (self : t) : Q * t :=
  (clock self O,
   {| model_weights := model_weights self; cache_manager := cache_manager self;
      np_random := np_random self; clock := fun n => clock self (S n) |}).

Definition with_cache (self : t) (c : CacheManager.t cache_value) : t :=
  {| model_weights := model_weights self; cache_manager := c;
     np_random := np_random self; clock := clock self |}.

Definition with_rng (self : t) (rng : rng_state) : t :=
  {| model_weights := model_weights self; cache_manager := cache_manager self;
     np_random := rng; clock := clock self |}.

(** *** Dates and their text *)

Definition is_leap (y : Z) : bool :=
  ((y mod 4 =? 0) && (negb (y mod 100 =? 0) || (y mod 400 =? 0)))%Z.

Definition days_in_month (y m : Z) : Z :=
  if (m =? 2)%Z then (if is_leap y then 29 else 28)%Z
  else if ((m =? 4) || (m =? 6) || (m =? 9) || (m =? 11))%Z then 30%Z
  else 31%Z.

(** [d + relativedelta(months=n)] *)
Definition add_months (d : date) (n : Z) : date :=
  let index := (month d - 1 + n)%Z in
  let y := (year d + index / 12)%Z in
  let m := (index mod 12 + 1)%Z in
  {| year := y; month := m; day := Z.min (day d) (days_in_month y m) |}.

(** A non-negative number in at least [width] digits. *)
Definition zero_padded (width : nat) (n : Z) : string :=
  let s := pretty n in
  String.concat "" (repeat "0"%string (width - String.length s)) ++ s.

(** [str(d)], the ISO format. *)
Definition date_str (d : date) : string :=
  zero_padded 4 (year d) ++ "-" ++ zero_padded 2 (month d)
  ++ "-" ++ zero_padded 2 (day d).

(** [d.strftime('%Y-%m')] *)
Definition strftime_Y_m (d : date) : string :=
  zero_padded 4 (year d) ++ "-" ++ zero_padded 2 (month d).

Section engine.
Variable lib : Libraries.

(** *** The text of the pydantic models, [field=repr(value)] joined by
    blanks *)

Definition SegmentAdjustments_str (a : SegmentAdjustments) : string :=
  "highly_engaged=" ++ float_repr lib (highly_engaged a)
  ++ " reactive_engagers=" ++ float_repr lib (reactive_engagers a)
  ++ " content_complacent=" ++ float_repr lib (content_complacent a)
  ++ " unengaged=" ++ float_repr lib (unengaged a).

Definition CallVolumeFactors_str (f : CallVolumeFactors) : string :=
  "seasonal_factor=" ++ float_repr lib (seasonal_factor f)
  ++ " engagement_impact=" ++ float_repr lib (engagement_impact f)
  ++ " product_mix_impact=" ++ float_repr lib (product_mix_impact f)
  ++ " regulatory_impact=" ++ float_repr lib (regulatory_impact f).

Definition StaffingParameters_str (p : StaffingParameters) : string :=
  "avg_handle_time=" ++ float_repr lib (avg_handle_time p)
  ++ " hours_per_agent=" ++ pretty (hours_per_agent p)
  ++ " utilization_target=" ++ float_repr lib (utilization_target p)
  ++ " supervisor_ratio=" ++ float_repr lib (supervisor_ratio p)
  ++ " target_service_level=" ++ float_repr lib (target_service_level p)
  ++ " target_answer_time=" ++ pretty (target_answer_time p).

(** *** _generate_scenario_hash *)

Definition scenario_str (scenario : ForecastScenarioCreate) : string :=
  name scenario ++ "_" ++ date_str (base_month scenario)
  ++ "_" ++ pretty (forecast_months scenario) ++ "_"
  ++ float_repr lib (member_growth_rate scenario)
  ++ "_" ++ SegmentAdjustments_str (segment_adjustments scenario)
  ++ "_" ++ CallVolumeFactors_str (call_volume_factors scenario) ++ "_"
  ++ StaffingParameters_str (staffing_parameters scenario)
  ++ "_" ++ pretty (monte_carlo_iterations scenario).

Definition _generate_scenario_hash (scenario : ForecastScenarioCreate) : string :=
  md5_hexdigest lib (scenario_str scenario).

(** *** AnomalyDetector.detect_anomalies, the flagged periods *)

Definition detect_anomalies (historical_data : list HistoricalObservation)
  : list nat :=
  if (length historical_data <? 10)%nat then []
  else isolation_forest lib historical_data.

(** *** _perform_seasonal_decomposition, the seasonal indices *)

Definition flat_indices : gmap Z Q :=
  list_to_map (List.map (fun i => ((i + 1)%Z, 0)) (range 12)).

Definition _perform_seasonal_decomposition (self : t)
    (data : list HistoricalObservation) : gmap Z Q * t :=
  let data_hash := md5_hexdigest lib (data_bytes lib data) in
  match CacheManager.get_seasonal_patterns (cache_manager self) data_hash with
  | Some (CachedSeasonal cached_decomposition) => (cached_decomposition, self)
  | _ =>
      let decomposition :=
        if (24 <=? length data)%nat then seasonal_fit lib data
        else flat_indices in
      (decomposition,
       with_cache self
         (CacheManager.cache_seasonal_patterns (cache_manager self) data_hash
            (CachedSeasonal decomposition)))
  end.

(** *** _calculate_base_metrics *)

Record BaseMetrics := {
  base_members : Q;
  base_calls_per_member : Q;
  base_handle_time : Q;
  growth_trend : Q
}.

(** The rates [(m[i] - m[i-1]) / m[i-1]] over positive predecessors. *)
Fixpoint growth_rates (members_data : list Q) : list Q :=
  match members_data with
  | prev :: (cur :: _) as rest =>
      if Qlt_bool 0 prev then (cur - prev) / prev :: growth_rates rest
      else growth_rates rest
  | _ => []
  end.

Definition _calculate_growth_trend (data : list HistoricalObservation) : Q :=
  if (length data <? 3)%nat then 0.025
  else
    let growth_rates := growth_rates (List.map total_members data) in
    match growth_rates with
    | [] => 0.025
    | _ => PyDict.sum growth_rates / inject_Z (Z.of_nat (length growth_rates))
    end.

Definition Qmax (x y : Q) : Q := if Qle_bool x y then y else x.

Definition _calculate_base_metrics (data : list HistoricalObservation)
  : BaseMetrics :=
  match last data with
  | None =>
      {| base_members := 10000; base_calls_per_member := 0.15;
         base_handle_time := 6.2; growth_trend := 0.025 |}
  | Some latest_data =>
      let total_members := total_members latest_data in
      let total_calls := total_calls latest_data in
      {| base_members := total_members;
         base_calls_per_member := total_calls / Qmax total_members 1;
         base_handle_time := h_avg_handle_time latest_data;
         growth_trend := _calculate_growth_trend data |}
  end.

(** *** _get_medicare_seasonal_multiplier *)

Fixpoint first_period (periods : list (string * Settings.SeasonalPeriod))
    (month : Z) : Q :=
  match periods with
  | [] => 1
  | (_, period_data) :: rest =>
      if existsb (Z.eqb month) (Settings.months period_data)
      then Settings.call_multiplier period_data
      else first_period rest month
  end.

Definition _get_medicare_seasonal_multiplier (month : Z) : Q :=
  first_period Settings.MEDICARE_SEASONAL_FACTORS month.

(** *** _forecast_single_month *)

Definition _forecast_single_month (segment_model : SegmentImpactModel.t)
    (forecast_month : date) (month_offset : Z)
    (scenario : ForecastScenarioCreate) (base_metrics : BaseMetrics)
    (decomposition : gmap Z Q) : res ForecastResult :=
  let growth_factor := (1 + member_growth_rate scenario / 100) ^ month_offset in
  let predicted_members := int_of_float (base_members base_metrics * growth_factor) in
  let month_num := month forecast_month in
  let f := call_volume_factors scenario in
  let scenario_seasonal_factor := seasonal_factor f in
  let seasonal_factor := default 0 (decomposition !! month_num) in
  let seasonal_multiplier := 1 + seasonal_factor in
  let medicare_multiplier := _get_medicare_seasonal_multiplier month_num in
  let default_distribution :=
    [ ("Highly Engaged", inject_Z predicted_members * 0.25);
      ("Reactive Engagers", inject_Z predicted_members * 0.35);
      ("Content & Complacent", inject_Z predicted_members * 0.25);
      ("Unengaged", inject_Z predicted_members * 0.15) ] in
  let calls_per_member :=
    SegmentImpactModel.calculate_segment_impact segment_model
      default_distribution (segment_adjustments scenario) in
  let total_volume_factor :=
    scenario_seasonal_factor * engagement_impact f * product_mix_impact f
    * regulatory_impact f * seasonal_multiplier * medicare_multiplier in
  let predicted_calls :=
    int_of_float (inject_Z predicted_members * calls_per_member
                  * total_volume_factor) in
  let p := staffing_parameters scenario in
  staffing ←
    ErlangCStaffingModel.calculate_required_agents (math_exp lib)
      predicted_calls (avg_handle_time p)
      (target_service_level p) (target_answer_time p);
  let '(required_staff, utilization, service_level) := staffing in
  let required_supervisors :=
    Z.max 1 (int_of_float (inject_Z required_staff * supervisor_ratio p)) in
  Ok {| fr_month := strftime_Y_m forecast_month;
        predicted_members := predicted_members;
        predicted_calls := predicted_calls;
        calls_per_member := calls_per_member;
        required_staff := required_staff;
        required_supervisors := required_supervisors;
        agent_utilization := utilization;
        service_level := service_level;
        members_confidence := None;
        calls_confidence := None;
        staff_confidence := None |}.

(** The loop over [range(1, scenario.forecast_months + 1)]. *)
Fixpoint forecast_months_loop (segment_model : SegmentImpactModel.t)
    (scenario : ForecastScenarioCreate) (base_metrics : BaseMetrics)
    (decomposition : gmap Z Q) (offsets : list Z)
  : res (list ForecastResult) :=
  match offsets with
  | [] => Ok []
  | month_offset :: rest =>
      let forecast_month := add_months (base_month scenario) month_offset in
      month_result ←
        _forecast_single_month segment_model forecast_month month_offset
          scenario base_metrics decomposition;
      results ← forecast_months_loop segment_model scenario base_metrics
                  decomposition rest;
      Ok (month_result :: results)
  end.

(** *** _run_monte_carlo *)

Definition base_scenario_dict (scenario : ForecastScenarioCreate)
    (base_metrics : BaseMetrics) : gmap string pyval :=
  <["forecast_months" := PyInt (forecast_months scenario)]>
  (<["member_growth_rate" := PyFloat (member_growth_rate scenario)]>
  (<["base_members" := PyFloat (base_members base_metrics)]>
  (<["calls_per_member" := PyFloat (base_calls_per_member base_metrics)]>
  (<["avg_handle_time" := PyFloat (avg_handle_time (staffing_parameters scenario))]>
  (<["seasonality_factor" :=
       PyFloat (seasonal_factor (call_volume_factors scenario))]> ∅))))).

Definition _run_monte_carlo (scenario : ForecastScenarioCreate)
    (base_metrics : BaseMetrics) (rng : rng_state)
  : res (gmap string (gmap string (list Q)) * rng_state) :=
  MonteCarloSimulator.run_forecast_simulation
    (base_scenario_dict scenario base_metrics)
    (monte_carlo_iterations scenario) rng.

(** *** generate_forecast

    The caller passes the historical data; the branch that loads sample
    data when none is given is not part of the embedding. *)

Definition generate_forecast (self : t) (scenario : ForecastScenarioCreate)
    (historical_data : list HistoricalObservation)
  : res (list ForecastResult * Metadata * t) :=
  let '(start_time, self) := time_time self in
  let scenario_hash := _generate_scenario_hash scenario in
  match CacheManager.get_forecast_result (cache_manager self) scenario_hash with
  | Some (CachedForecast results metadata) => Ok (results, metadata, self)
  | _ =>
      let anomaly_periods := detect_anomalies historical_data in
      let '(decomposition, self) :=
        _perform_seasonal_decomposition self historical_data in
      let base_metrics := _calculate_base_metrics historical_data in
      forecast_results ←
        forecast_months_loop SegmentImpactModel.__init__ scenario base_metrics
          decomposition (range_from 1 (forecast_months scenario + 1));
      merged ←
        (if (0 <? monte_carlo_iterations scenario)%Z then
           simulated ← _run_monte_carlo scenario base_metrics (np_random self);
           let '(confidence_intervals, rng) := simulated in
           forecast_results ←
             ConfidenceIntervals._apply_confidence_intervals
               forecast_results confidence_intervals;
           Ok (forecast_results, with_rng self rng)
         else Ok (forecast_results, self));
      let '(forecast_results, self) := merged in
      let '(end_time, self) := time_time self in
      let metadata :=
        {| computation_time := end_time - start_time;
           anomaly_count := Z.of_nat (length anomaly_periods);
           data_quality_score := data_quality lib historical_data;
           md_model_weights := model_weights self |} in
      let self :=
        with_cache self
          (CacheManager.cache_forecast_result (cache_manager self) scenario_hash
             (CachedForecast forecast_results metadata)) in
      Ok (forecast_results, metadata, self)
  end.

End engine.
End ForecastEngine.

(** ** ForecastEngine.calculate_accuracy_metrics, over binary64 *)

Module Accuracy.
Local Open Scope float_scope.

Record AccuracyMetrics := {
  mape : float; mae : float; rmse : float;
  wmape : float; smape : float; r_squared : float
}.

(** [np.sum] of a short one-dimensional array: from 0.0, the elements
    added in order (numpy adds in blocks only from eight elements on). *)
Definition np_sum (xs : list float) : float := fold_left PrimFloat.add xs 0.

(** [len(xs)] as a float. *)
Definition count (xs : list float) : float :=
  fold_left (fun n _ => n + 1) xs 0.

Definition np_mean (xs : list float) : float := np_sum xs / count xs.

(** [np.clip(x, lo, None)] *)
Definition clip_below (lo x : float) : float :=
  if PrimFloat.ltb x lo then lo else x.

(** Elementwise combination of two arrays of one length. *)
Fixpoint zip_with (f : float -> float -> float) (xs ys : list float)
  : list float :=
  match xs, ys with
  | x :: xs', y :: ys' => f x y :: zip_with f xs' ys'
  | _, _ => []
  end.

Definition calculate_accuracy_metrics (actual predicted : list float)
  : AccuracyMetrics :=
  match actual, predicted with
  | [], _ | _, [] =>
      {| mape := 0; mae := 0; rmse := 0; wmape := 0; smape := 0; r_squared := 0 |}
  | _, _ =>
      let diff := zip_with PrimFloat.sub actual predicted in
      let mape :=
        np_mean (zip_with (fun d a => abs (d / clip_below 1e-10 a)) diff actual)
        * 100 in
      let mae := np_mean (List.map abs diff) in
      let rmse := sqrt (np_mean (List.map (fun d => d * d) diff)) in
      let wmape := np_sum (List.map abs diff) / np_sum actual * 100 in
      let smape :=
        np_mean (zip_with (fun d ap => 2 * abs d / ap) diff
                   (zip_with (fun a p => abs a + abs p) actual predicted))
        * 100 in
      let ss_res := np_sum (List.map (fun d => d * d) diff) in
      let mean_actual := np_mean actual in
      let ss_tot :=
        np_sum (List.map (fun a => (a - mean_actual) * (a - mean_actual)) actual) in
      let r_squared :=
        if negb (PrimFloat.eqb ss_tot 0) then 1 - ss_res / ss_tot else 0 in
      {| mape := mape; mae := mae; rmse := rmse;
         wmape := wmape; smape := smape; r_squared := r_squared |}
  end.

End Accuracy.

(** ** CacheManager, the remaining methods

    [aioredis = None] in the source, so [connect] on an enabled manager
    fails at [aioredis.from_url] with an [AttributeError], which its
    [except Exception] turns into a disabled manager without connection. *)

Module CacheSession.
Import CacheManager.

Definition connect {V} (self : t V) : t V :=
  if negb (enabled self) then self
  else {| redis := None; default_ttl := default_ttl self; enabled := false |}.

Definition get_model_weights {V} (self : t V) (model_id : string) : option V :=
  get self ("model_weights:" ++ model_id).
Definition cache_model_weights {V} (self : t V) (model_id : string) (weights : V) : t V :=
  setex self ("model_weights:" ++ model_id) weights.

(** The calls that change a manager. *)
Inductive call (V : Type) : Type :=
  | Connect
  | CacheForecastResult (scenario_hash : string) (result : V)
  | CacheSeasonalPatterns (data_hash : string) (patterns : V)
  | CacheModelWeights (model_id : string) (weights : V).
Arguments Connect {V}.
Arguments CacheForecastResult {V} _ _.
Arguments CacheSeasonalPatterns {V} _ _.
Arguments CacheModelWeights {V} _ _.

Definition perform {V} (self : t V) (c : call V) : t V :=
  match c with
  | Connect => connect self
  | CacheForecastResult h v => cache_forecast_result self h v
  | CacheSeasonalPatterns h v => cache_seasonal_patterns self h v
  | CacheModelWeights h v => cache_model_weights self h v
  end.

End CacheSession.


(* ===================================================================== *)
(** * Properties *)
(* ===================================================================== *)

(** ** Exceptions of the Erlang-C routine *)

Section erlang_exceptions.
Import PyFloat ErlangCStaffingModel.
Local Open Scope Q_scope.

(** [handled m]: [m] returns, or raises one of the two exceptions that the
    handler of [_erlang_c_probability] catches. *)
Definition handled {A} (m : res A) : Prop :=
  match m with
  | Ok _ | Raise OverflowError | Raise ZeroDivisionError => True
  | Raise _ => False
  end.

Lemma handled_bind {A B} (m : res A) (f : A -> res B) :
  handled m -> (forall a, handled (f a)) -> handled (m ≫= f).
Proof. destruct m as [a|e]; simpl; [intros _ H; apply H | auto]. Qed.

Lemma handled_float_pow x n : handled (float_pow x n).
Proof.
  unfold float_pow.
  destruct (Qeq_bool x 0 && (n <? 0)%Z)%bool; simpl; [exact I|].
  destruct (float_fits (x ^ n)); exact I.
Qed.

Lemma handled_float_of_int n : handled (float_of_int n).
Proof. unfold float_of_int. destruct (float_fits _); exact I. Qed.

Lemma handled_float_div x y : handled (float_div x y).
Proof. unfold float_div. destruct (Qeq_bool y 0); exact I. Qed.

Lemma handled_math_factorial n : (0 <= n)%Z -> handled (math_factorial n).
Proof.
  intros Hn. unfold math_factorial.
  destruct (Z.ltb_spec n 0); [lia | exact I].
Qed.

Lemma handled_last_term agents traffic :
  (0 <= agents)%Z -> handled (last_term agents traffic).
Proof.
  intros Ha. unfold last_term.
  apply handled_bind; [apply handled_float_pow | intros p].
  apply handled_bind; [apply handled_math_factorial, Ha | intros f].
  apply handled_bind; [apply handled_float_of_int | intros ff].
  apply handled_bind; [apply handled_float_div | intros t].
  apply handled_bind; [apply handled_float_of_int | intros a].
  apply handled_bind; [apply handled_float_div | intros r; exact I].
Qed.

Lemma handled_sum_terms traffic ks :
  Forall (fun k => 0 <= k)%Z ks ->
  forall acc, handled (sum_terms traffic ks acc).
Proof.
  induction 1 as [|k ks Hk _ IH]; intros acc; simpl; [exact I|].
  apply handled_bind; [apply handled_float_pow | intros p].
  apply handled_bind; [apply handled_math_factorial, Hk | intros f].
  apply handled_bind; [apply handled_float_of_int | intros ff].
  apply handled_bind; [apply handled_float_div | intros t].
  apply IH.
Qed.

Lemma range_nonneg n : Forall (fun k => 0 <= k)%Z (range n).
Proof.
  unfold range. apply Forall_forall. intros k Hk.
  apply list_elem_of_In, in_map_iff in Hk. destruct Hk as (i & <- & _). lia.
Qed.

Lemma handled_erlang_c_try agents traffic :
  (0 <= agents)%Z -> handled (erlang_c_try agents traffic).
Proof.
  intros Ha. unfold erlang_c_try.
  apply handled_bind; [apply handled_last_term, Ha | intros n].
  apply handled_bind; [apply handled_sum_terms, range_nonneg | intros d].
  apply handled_bind; [apply handled_last_term, Ha | intros e].
  apply handled_float_div.
Qed.

(** With a non-negative agent count the routine always returns. *)
Lemma erlang_c_probability_returns agents traffic :
  (0 <= agents)%Z -> exists p, _erlang_c_probability agents traffic = Ok p.
Proof.
  intros Ha. pose proof (handled_erlang_c_try agents traffic Ha) as H.
  unfold _erlang_c_probability.
  destruct (erlang_c_try agents traffic) as [p|[]]; simpl in H; try tauto; eauto.
Qed.

(** *** Factorials leave the float range at 171 *)

Lemma fact_Z_pos n : (0 < fact_Z n)%Z.
Proof. induction n; simpl fact_Z; lia. Qed.

Lemma fact_Z_mono n m : (n <= m)%nat -> (fact_Z n <= fact_Z m)%Z.
Proof.
  induction 1 as [|m _ IH]; [lia|].
  change (fact_Z (S m)) with (Z.of_nat (S m) * fact_Z m)%Z.
  pose proof (fact_Z_pos m). nia.
Qed.

Lemma fact_Z_171_overflows : (OVERFLOW_THRESHOLD <= fact_Z 171)%Z.
Proof. vm_compute. discriminate. Qed.

Lemma fact_Z_170_fits : (fact_Z 170 < OVERFLOW_THRESHOLD)%Z.
Proof. vm_compute. reflexivity. Qed.

Lemma float_of_int_overflow n :
  (OVERFLOW_THRESHOLD <= n)%Z -> float_of_int n = Raise OverflowError.
Proof.
  intros Hn. unfold float_of_int, float_fits, Qlt_bool.
  assert (0 < OVERFLOW_THRESHOLD)%Z by (vm_compute; reflexivity).
  assert (Hle : Qle_bool (inject_Z OVERFLOW_THRESHOLD) (Qabs (inject_Z n)) = true).
  { apply Qle_bool_iff.
    apply Qle_trans with (inject_Z n); [rewrite <- Zle_Qle; exact Hn|].
    apply Qle_Qabs. }
  rewrite Hle. reflexivity.
Qed.

Lemma erlang_c_probability_overflow agents traffic :
  (171 <= agents)%Z -> _erlang_c_probability agents traffic = Ok 0.
Proof.
  intros Ha. unfold _erlang_c_probability, erlang_c_try, last_term.
  pose proof (handled_float_pow traffic agents) as Hp.
  destruct (float_pow traffic agents) as [p|e]; cbn [mbind res_bind].
  - unfold math_factorial. destruct (Z.ltb_spec agents 0); [lia|].
    cbn [mbind res_bind].
    rewrite (float_of_int_overflow (fact_Z (Z.to_nat agents))); [reflexivity|].
    etransitivity; [apply fact_Z_171_overflows|].
    apply fact_Z_mono. lia.
  - destruct e; simpl in Hp; try tauto; reflexivity.
Qed.

(** *** When nothing is raised the value is the Erlang-C formula *)

Lemma float_pow_Ok x n p : float_pow x n = Ok p -> p = x ^ n.
Proof.
  unfold float_pow. destruct (Qeq_bool x 0 && (n <? 0)%Z)%bool; [discriminate|].
  simpl. destruct (float_fits _); congruence.
Qed.

Lemma float_of_int_Ok n q : float_of_int n = Ok q -> q = inject_Z n.
Proof. unfold float_of_int. destruct (float_fits _); congruence. Qed.

Lemma float_div_Ok x y q : float_div x y = Ok q -> q = x / y.
Proof. unfold float_div. destruct (Qeq_bool y 0); congruence. Qed.

Lemma math_factorial_Ok n f : math_factorial n = Ok f -> f = fact_Z (Z.to_nat n).
Proof. unfold math_factorial. destruct (n <? 0)%Z; congruence. Qed.

Lemma bind_Ok {A B} (m : res A) (f : A -> res B) b :
  m ≫= f = Ok b -> exists a, m = Ok a /\ f a = Ok b.
Proof. destruct m as [a|e]; simpl; [eauto | discriminate]. Qed.

Ltac bind_inv H :=
  let a := fresh "v" in let Ha := fresh "Hv" in
  apply bind_Ok in H; destruct H as (a & Ha & H).

Lemma term_Ok traffic k t :
  float_pow traffic k ≫= (fun p => math_factorial k ≫= (fun f =>
    float_of_int f ≫= (fun ff => float_div p ff))) = Ok t ->
  t = erlang_term traffic k.
Proof.
  intros H. bind_inv H. bind_inv H. bind_inv H.
  apply float_pow_Ok in Hv. apply math_factorial_Ok in Hv0.
  apply float_of_int_Ok in Hv1. apply float_div_Ok in H.
  unfold erlang_term. congruence.
Qed.

Lemma last_term_Ok agents traffic q :
  last_term agents traffic = Ok q ->
  q = erlang_term traffic agents
      * (inject_Z agents / (inject_Z agents - traffic)).
Proof.
  unfold last_term. intros H.
  bind_inv H. bind_inv H. bind_inv H. bind_inv H. bind_inv H. bind_inv H.
  apply float_pow_Ok in Hv. apply math_factorial_Ok in Hv0.
  apply float_of_int_Ok in Hv1. apply float_div_Ok in Hv2.
  apply float_of_int_Ok in Hv3. apply float_div_Ok in Hv4.
  unfold erlang_term. congruence.
Qed.

Lemma sum_terms_Ok traffic ks : forall acc q,
  sum_terms traffic ks acc = Ok q ->
  q == acc + fold_right Qplus 0 (List.map (erlang_term traffic) ks).
Proof.
  induction ks as [|k ks IH]; intros acc q H; simpl in *.
  - injection H as <-. ring.
  - bind_inv H. bind_inv H. bind_inv H. bind_inv H.
    assert (v2 = erlang_term traffic k) as ->.
    { apply term_Ok. rewrite Hv. simpl. rewrite Hv0. simpl. rewrite Hv1. exact Hv2. }
    rewrite (IH _ _ H). ring.
Qed.

Lemma erlang_c_try_Ok agents traffic p :
  erlang_c_try agents traffic = Ok p -> p == erlang_c_formula agents traffic.
Proof.
  unfold erlang_c_try. intros H. bind_inv H. bind_inv H. bind_inv H.
  apply last_term_Ok in Hv, Hv1. apply sum_terms_Ok in Hv0.
  apply float_div_Ok in H. subst. unfold erlang_c_formula. cbv zeta.
  rewrite Hv0. rewrite Qplus_0_l. reflexivity.
Qed.

End erlang_exceptions.

(** ** The agent search of [calculate_required_agents] *)

Section agent_search.
Import PyFloat ErlangCStaffingModel.
Local Open Scope Q_scope.

Variable exp : Q -> Q.
Variables (T aht tsl : Q) (tat : Z).

(** The value the routine hands to the search. *)
Definition erlang_value (agents : Z) : Q :=
  match _erlang_c_probability agents T with Ok p => p | Raise _ => 0 end.

(** The test [prob_within_target >= target_service_level] for a count. *)
Definition level_of (agents : Z) : Q :=
  prob_within_target_of exp T aht tat agents (erlang_value agents).
Definition meets (agents : Z) : Prop := tsl <= level_of agents.

Lemma search_spec fuel : forall a last, (0 <= a)%Z ->
  exists A l, search exp T aht tsl tat fuel a last = Ok (A, l) /\
    (a <= A <= a + Z.of_nat fuel)%Z /\
    (forall B, (a <= B < A)%Z -> T < inject_Z B -> ~ meets B) /\
    ((A < a + Z.of_nat fuel)%Z ->
       T < inject_Z A /\ meets A /\ l = Some (level_of A)).
Proof.
  induction fuel as [|fuel IH]; intros a last Ha.
  - exists a, last. simpl. repeat split; lia.
  - cbn [search].
    destruct (Qle_bool (inject_Z a) T) eqn:Hle.
    + destruct (IH (a + 1)%Z last ltac:(lia)) as (A & l & Hs & Hr & Hmin & Hf).
      exists A, l. split; [exact Hs|]. split; [lia|]. split.
      * intros B HB HT. destruct (Z.eq_dec B a) as [->|Hne].
        -- apply Qle_bool_iff in Hle. lra.
        -- apply Hmin; [lia | exact HT].
      * intros HA. apply Hf. lia.
    + assert (HTa : T < inject_Z a).
      { apply Qnot_le_lt. intros H. apply Qle_bool_iff in H. congruence. }
      destruct (erlang_c_probability_returns a T Ha) as [p Hp].
      assert (Hlev : prob_within_target_of exp T aht tat a p = level_of a).
      { unfold level_of, erlang_value. rewrite Hp. reflexivity. }
      rewrite Hp. simpl. rewrite Hlev.
      destruct (Qle_bool tsl (level_of a)) eqn:Hm.
      * exists a, (Some (level_of a)). split; [reflexivity|].
        split; [lia|]. split; [intros B HB; lia|].
        intros _. split; [exact HTa|]. split; [|reflexivity].
        apply Qle_bool_iff. exact Hm.
      * destruct (IH (a + 1)%Z (Some (level_of a)) ltac:(lia))
          as (A & l & Hs & Hr & Hmin & Hf).
        exists A, l. split; [exact Hs|]. split; [lia|]. split.
        -- intros B HB HT. destruct (Z.eq_dec B a) as [->|Hne].
           ++ intros H. apply Qle_bool_iff in H. congruence.
           ++ apply Hmin; [lia | exact HT].
        -- intros HA. apply Hf. lia.
Qed.

(** Where the [try] body raised nothing, the level is the one of the
    Erlang-C formula. *)
Lemma level_of_exact agents :
  is_ok (erlang_c_try agents T) = true ->
  level_of agents == exact_service_level exp T aht tat agents.
Proof.
  unfold level_of, erlang_value, _erlang_c_probability, is_ok.
  destruct (erlang_c_try agents T) as [p|e] eqn:Htry; [intros _|discriminate].
  apply erlang_c_try_Ok in Htry.
  unfold prob_within_target_of, exact_service_level. rewrite Htry. reflexivity.
Qed.

End agent_search.

Section required_agents.
Import PyFloat ErlangCStaffingModel.
Local Open Scope Q_scope.

Lemma Qceiling_ge x : x <= inject_Z (Qceiling x).
Proof. apply Qle_ceiling. Qed.

Lemma traffic_positive cv aht :
  (0 < cv)%Z -> 0 < aht -> 0 < inject_Z cv * aht / 60.
Proof.
  intros Hcv Haht.
  assert (0 < inject_Z cv) by (rewrite <- (Zlt_Qlt 0); exact Hcv).
  apply Qlt_shift_div_l; [reflexivity|]. nra.
Qed.

(** What the function returns on a proper input, in terms of the search. *)
Lemma calculate_required_agents_unfold exp cv aht tsl tat :
  (0 < cv)%Z -> 0 < aht ->
  let T := inject_Z cv * aht / 60 in
  let first := Z.max 1 (Qceiling T) in
  exists A l,
    search exp T aht tsl tat max_iterations first None = Ok (A, l) /\
    calculate_required_agents exp cv aht tsl tat =
      Ok (A, (if (0 <? A)%Z then T / inject_Z A else 0),
          match l with Some p => p | None => 0 end).
Proof.
  intros Hcv Haht T first.
  pose proof (traffic_positive cv aht Hcv Haht) as HT. fold T in HT.
  destruct (search_spec exp T aht tsl tat max_iterations first None)
    as (A & l & Hs & _); [lia|].
  exists A, l. split; [exact Hs|].
  unfold calculate_required_agents.
  destruct (Z.leb_spec cv 0); [lia|].
  destruct (Qle_bool aht 0) eqn:Ha; [apply Qle_bool_iff in Ha; lra|].
  cbn [orb]. fold T.
  destruct (Qle_bool T 0) eqn:Ht; [apply Qle_bool_iff in Ht; lra|].
  fold first. rewrite Hs. reflexivity.
Qed.

End required_agents.

Section erlang_claims.
Import PyFloat ErlangCStaffingModel.
Local Open Scope Q_scope.

Lemma erlang_term_pos traffic k : 0 < traffic -> 0 < erlang_term traffic k.
Proof.
  intros HT. unfold erlang_term.
  apply Qlt_shift_div_l.
  - rewrite <- (Zlt_Qlt 0). apply fact_Z_pos.
  - rewrite Qmult_0_l. apply Qpower_0_lt, HT.
Qed.

Lemma erlang_sum_nonneg traffic ks :
  0 < traffic -> 0 <= fold_right Qplus 0 (List.map (erlang_term traffic) ks).
Proof.
  intros HT. induction ks as [|k ks IH]; simpl; [lra|].
  pose proof (erlang_term_pos traffic k HT). lra.
Qed.

(** The Erlang-C probability of a stable system is positive. *)
Lemma erlang_c_formula_pos agents traffic :
  0 < traffic -> traffic < inject_Z agents ->
  0 < erlang_c_formula agents traffic.
Proof.
  intros HT HA. unfold erlang_c_formula. cbv zeta.
  set (top := erlang_term traffic agents
              * (inject_Z agents / (inject_Z agents - traffic))).
  assert (Htop : 0 < top).
  { unfold top. apply Qmult_lt_0_compat; [apply erlang_term_pos, HT|].
    apply Qlt_shift_div_l; lra. }
  pose proof (erlang_sum_nonneg traffic (range agents) HT) as Hs.
  apply Qlt_shift_div_l; lra.
Qed.

(** C2.  The queueing probability is evaluated with raw powers and
    factorials, and the handler of the routine turns the overflow into the
    value 0.0.  At 151 agents and 150 Erlangs (the first candidate for 1800
    calls of 5 minutes) the power leaves the float range, and from 171
    agents on the factorial does: the routine returns 0 although the
    Erlang-C probability is positive. *)
Theorem erlang_c_probability_zero_on_overflow :
  _erlang_c_probability 151 150 = Ok 0 /\ 0 < erlang_c_formula 151 150 /\
  _erlang_c_probability 171 150 = Ok 0 /\ 0 < erlang_c_formula 171 150.
Proof.
  split; [vm_compute; reflexivity|].
  split; [apply erlang_c_formula_pos; reflexivity|].
  split; [apply erlang_c_probability_overflow; lia|].
  apply erlang_c_formula_pos; reflexivity.
Qed.

(** One step of the search, by cases. *)
Lemma search_skip exp T aht tsl tat fuel a last :
  inject_Z a <= T ->
  search exp T aht tsl tat (S fuel) a last
  = search exp T aht tsl tat fuel (a + 1)%Z last.
Proof.
  intros H. apply Qle_bool_iff in H. cbn [search]. rewrite H. reflexivity.
Qed.

Lemma search_hit exp T aht tsl tat fuel a last p :
  T < inject_Z a ->
  _erlang_c_probability a T = Ok p ->
  tsl <= prob_within_target_of exp T aht tat a p ->
  search exp T aht tsl tat (S fuel) a last
  = Ok (a, Some (prob_within_target_of exp T aht tat a p)).
Proof.
  intros Ha Hp Hm. cbn [search].
  destruct (Qle_bool (inject_Z a) T) eqn:Hle.
  { apply Qle_bool_iff in Hle. lra. }
  rewrite Hp. simpl. apply Qle_bool_iff in Hm. rewrite Hm. reflexivity.
Qed.

(** For one call of six minutes the load is a tenth of an Erlang and a
    single agent meets the usual target, whatever [math.exp] returns
    within its range on negative arguments. *)
Lemma one_agent_suffices exp :
  (forall x, x <= 0 -> 0 <= exp x /\ exp x <= 1) ->
  exists u sl, calculate_required_agents exp 1 6 0.8 20 = Ok (1%Z, u, sl)
               /\ 0.8 <= sl.
Proof.
  intros Hexp. unfold calculate_required_agents.
  cbn [Z.leb orb]. change (1 <=? 0)%Z with false.
  change (Qle_bool 6 0) with false. cbn [orb]. cbv zeta.
  change (Qle_bool (inject_Z 1 * 6 / 60) 0) with false. cbv iota.
  change (Z.max 1 (Qceiling (inject_Z 1 * 6 / 60))) with 1%Z.
  unfold max_iterations.
  assert (Hp : _erlang_c_probability 1 (inject_Z 1 * 6 / 60) = Ok (1166400 # 11664000)).
  { vm_compute. reflexivity. }
  assert (Hm : 0.8 <= prob_within_target_of exp (inject_Z 1 * 6 / 60) 6 20 1 (1166400 # 11664000)).
  { unfold prob_within_target_of.
    destruct (Hexp (- (inject_Z 1 - inject_Z 1 * 6 / 60) * inject_Z 20 / 6))
      as [H0 H1]; [vm_compute; discriminate|].
    set (e := exp _) in *. lra. }
  assert (Ha : inject_Z 1 * 6 / 60 < inject_Z 1) by reflexivity.
  rewrite (search_hit exp _ 6 0.8 20 99 1%Z None _ Ha Hp Hm).
  simpl. eexists _, _. split; [reflexivity | exact Hm].
Qed.

(** For 1800 calls of five minutes the load is 150 Erlangs; the first
    candidate, 151 agents, overflows in the Erlang-C routine, so the search
    stops there and reports a service level of 1 for any target up to 1. *)
Lemma overflow_reports_full_service exp tsl :
  tsl <= 1 ->
  exists u sl, calculate_required_agents exp 1800 5 tsl 20 = Ok (151%Z, u, sl)
               /\ sl == 1.
Proof.
  intros Htsl. unfold calculate_required_agents.
  change (1800 <=? 0)%Z with false. change (Qle_bool 5 0) with false.
  cbn [orb]. cbv zeta.
  change (Qle_bool (inject_Z 1800 * 5 / 60) 0) with false. cbv iota.
  change (Z.max 1 (Qceiling (inject_Z 1800 * 5 / 60))) with 150%Z.
  unfold max_iterations.
  rewrite search_skip by (apply Qle_bool_iff; reflexivity).
  change (150 + 1)%Z with 151%Z.
  assert (Hp : _erlang_c_probability 151 (inject_Z 1800 * 5 / 60) = Ok 0)
    by (vm_compute; reflexivity).
  assert (Hone : forall e, 1 - 0 * e == 1) by (intros e; ring).
  assert (Hm : tsl <= prob_within_target_of exp (inject_Z 1800 * 5 / 60) 5 20 151 0).
  { unfold prob_within_target_of. rewrite Hone. exact Htsl. }
  assert (Ha : inject_Z 1800 * 5 / 60 < inject_Z 151) by reflexivity.
  rewrite (search_hit exp _ 5 tsl 20 98 151%Z None _ Ha Hp Hm).
  simpl. eexists _, _. split; [reflexivity|].
  unfold prob_within_target_of. apply Hone.
Qed.

(** C3, as stated, at one call of six minutes: the function returns one
    agent with the target met, below [ceil(T) + 1 = 2]. *)
Lemma required_agents_below_ceil_plus_one :
  exists u sl,
    calculate_required_agents exp_series 1 6 0.8 20 = Ok (1%Z, u, sl) /\
    0.8 <= sl /\
    ~ (Qceiling (inject_Z 1 * 6 / 60) + 1 <= 1)%Z.
Proof.
  eexists _, _. split; [vm_compute; reflexivity|]. split.
  - apply Qle_bool_iff. vm_compute. reflexivity.
  - assert (Qceiling (inject_Z 1 * 6 / 60) = 1%Z) as -> by reflexivity. lia.
Qed.

Lemma Qceiling_le_of_lt x (z : Z) : x < inject_Z z -> (Qceiling x <= z)%Z.
Proof.
  intros H. rewrite <- (Qceiling_Z z). apply Qceiling_resp_le. lra.
Qed.

Lemma Qceiling_pos x : 0 < x -> (1 <= Qceiling x)%Z.
Proof.
  intros H. pose proof (Qle_ceiling x) as Hc.
  assert (0 < inject_Z (Qceiling x)) as H0 by lra.
  rewrite <- (Zlt_Qlt 0) in H0. lia.
Qed.

(** The result of a proper call, in terms of the levels the search saw:
    the count lies above the load, within a hundred of [ceil(T)]; no
    smaller count above the load met the target; and a count below
    [ceil(T) + 100] met it and carries its own level. *)
Lemma required_agents_search exp cv aht tsl tat :
  (0 < cv)%Z -> 0 < aht ->
  let T := inject_Z cv * aht / 60 in
  exists A l,
    calculate_required_agents exp cv aht tsl tat =
      Ok (A, T / inject_Z A, match l with Some p => p | None => 0 end) /\
    T < inject_Z A /\ (A <= Qceiling T + 100)%Z /\
    (forall B, T < inject_Z B -> (B < A)%Z -> ~ meets exp T aht tsl tat B) /\
    ((A < Qceiling T + 100)%Z ->
       meets exp T aht tsl tat A /\ l = Some (level_of exp T aht tat A)).
Proof.
  intros Hcv Haht T.
  pose proof (traffic_positive cv aht Hcv Haht) as HT. fold T in HT.
  destruct (calculate_required_agents_unfold exp cv aht tsl tat Hcv Haht)
    as (A & l & Hs & Hc). fold T in Hs, Hc.
  pose proof (Qceiling_pos T HT) as Hceil.
  replace (Z.max 1 (Qceiling T)) with (Qceiling T) in Hs by lia.
  destruct (search_spec exp T aht tsl tat max_iterations (Qceiling T) None)
    as (A' & l' & Hs' & Hr & Hmin & Hf); [lia|].
  rewrite Hs in Hs'. injection Hs' as <- <-.
  change (Z.of_nat max_iterations) with 100%Z in Hr, Hf.
  assert (HTA : T < inject_Z A).
  { destruct (Z.lt_ge_cases A (Qceiling T + 100)) as [Hlt|Hge].
    - apply Hf, Hlt.
    - pose proof (Qle_ceiling T) as Hc'.
      assert (inject_Z (Qceiling T) < inject_Z A)
        by (rewrite <- Zlt_Qlt; lia).
      lra. }
  assert (HAz : (0 < A)%Z).
  { rewrite (Zlt_Qlt 0). change (inject_Z 0) with 0. lra. }
  exists A, l. split.
  { rewrite Hc. destruct (Z.ltb_spec 0 A); [reflexivity | lia]. }
  split; [exact HTA|]. split; [lia|]. split.
  - intros B HB HBA. apply Hmin; [|exact HB].
    split; [apply Qceiling_le_of_lt, HB | exact HBA].
  - intros HA. destruct Hf as (_ & Hm & Hl); [lia|]. split; assumption.
Qed.

(** C3, amended.  On a proper input the function returns; the returned
    count exceeds the load; and, as long as no overflow is caught for the
    counts up to the returned one, no smaller count above the load meets
    the target, a count within the first hundred candidates meets it and
    carries its own level, and otherwise the count is [ceil(T) + 100]. *)
Theorem required_agents_minimal exp cv aht tsl tat :
  (0 < cv)%Z -> 0 < aht ->
  let T := inject_Z cv * aht / 60 in
  let SL := exact_service_level exp T aht tat in
  exists A u sl,
    calculate_required_agents exp cv aht tsl tat = Ok (A, u, sl) /\
    T < inject_Z A /\
    ((forall B, T < inject_Z B -> (B <= A)%Z ->
        is_ok (erlang_c_try B T) = true) ->
     (forall B, T < inject_Z B -> (B < A)%Z -> ~ tsl <= SL B) /\
     ((A <= Qceiling T + 99)%Z -> tsl <= SL A /\ sl == SL A) /\
     ((Qceiling T + 99 < A)%Z -> A = (Qceiling T + 100)%Z)).
Proof.
  intros Hcv Haht T SL.
  destruct (required_agents_search exp cv aht tsl tat Hcv Haht)
    as (A & l & Hc & HTA & Hle & Hmin & Hf). fold T in Hc, HTA, Hle, Hmin, Hf.
  eexists A, _, _. split; [exact Hc|]. split; [exact HTA|].
  intros Hfit. split; [|split].
  - intros B HB HBA Hm. apply (Hmin B HB HBA).
    unfold meets. rewrite level_of_exact; [exact Hm|].
    apply Hfit; [exact HB | lia].
  - intros HA. destruct Hf as (Hm & ->); [lia|].
    unfold meets in Hm.
    rewrite level_of_exact in Hm by (apply Hfit; [exact HTA | lia]).
    split; [exact Hm|].
    apply level_of_exact. apply Hfit; [exact HTA | lia].
  - intros HA. lia.
Qed.

(** The theorem at 100 calls of 5 minutes and a target of 80% within 20:
    nine agents, the least count above the load of 8.33 Erlangs. *)
Lemma required_agents_minimal_witness :
  let T := inject_Z 100 * 5 / 60 in
  let SL := exact_service_level exp_series T 5 20 in
  (0 < 100)%Z /\ 0 < 5 /\
  (forall B, T < inject_Z B -> (B <= 9)%Z -> is_ok (erlang_c_try B T) = true) /\
  exists u sl,
    calculate_required_agents exp_series 100 5 0.8 20 = Ok (9%Z, u, sl) /\
    (forall B, T < inject_Z B -> (B < 9)%Z -> ~ 0.8 <= SL B) /\
    0.8 <= SL 9%Z /\ sl == SL 9%Z.
Proof.
  intros T SL. split; [lia|]. split; [reflexivity|].
  assert (Hfit : forall B, T < inject_Z B -> (B <= 9)%Z ->
                           is_ok (erlang_c_try B T) = true).
  { intros B HB Hle. assert (B = 9%Z) as ->; [|reflexivity].
    assert (inject_Z 8 < inject_Z B) as H8.
    { eapply Qlt_trans; [|exact HB]. reflexivity. }
    rewrite <- Zlt_Qlt in H8. lia. }
  split; [exact Hfit|].
  destruct (required_agents_minimal exp_series 100 5 0.8 20)
    as (A & u & sl & Hc & _ & H); [lia | reflexivity |].
  assert (A = 9%Z) as ->.
  { remember (calculate_required_agents exp_series 100 5 0.8 20) as r eqn:Hr.
    vm_compute in Hr. subst r. injection Hc as <- _ _. reflexivity. }
  destruct (H Hfit) as (Hmin & Hfound & _).
  destruct Hfound as [Hm Hsl]; [vm_compute; discriminate|].
  exists u, sl. repeat split; assumption.
Defined.

(** C4, as stated, with a handle time of zero: the degenerate result has
    zero agents, which is not above the load of zero Erlangs. *)
Lemma zero_handle_time_not_stable :
  calculate_required_agents exp_series 1 0 0.8 20 = Ok (0%Z, 0, 0) /\
  ~ inject_Z 1 * 0 / 60 < inject_Z 0.
Proof. split; [reflexivity | intros H; vm_compute in H; discriminate]. Qed.

(** C4, amended.  With a positive call volume and a positive handle time
    the returned count is strictly above the traffic intensity and the
    returned utilization is [T / agents], within [0, 1]. *)
Theorem required_agents_stable exp cv aht tsl tat :
  (0 < cv)%Z -> 0 < aht ->
  let T := inject_Z cv * aht / 60 in
  exists A u sl,
    calculate_required_agents exp cv aht tsl tat = Ok (A, u, sl) /\
    T < inject_Z A /\ u == T / inject_Z A /\ 0 <= u /\ u <= 1.
Proof.
  intros Hcv Haht T.
  pose proof (traffic_positive cv aht Hcv Haht) as HT. fold T in HT.
  destruct (required_agents_search exp cv aht tsl tat Hcv Haht)
    as (A & l & Hc & HTA & _). fold T in Hc, HTA.
  eexists A, _, _. split; [exact Hc|]. split; [exact HTA|].
  split; [reflexivity|]. split.
  - apply Qle_shift_div_l; lra.
  - apply Qle_shift_div_r; lra.
Qed.

(** The theorem at 100 calls of 5 minutes. *)
Lemma required_agents_stable_witness :
  (0 < 100)%Z /\ 0 < 5 /\
  let T := inject_Z 100 * 5 / 60 in
  exists A u sl,
    calculate_required_agents exp_series 100 5 0.8 20 = Ok (A, u, sl) /\
    T < inject_Z A /\ u == T / inject_Z A /\ 0 <= u /\ u <= 1.
Proof.
  split; [lia|]. split; [reflexivity|].
  apply (required_agents_stable exp_series 100 5 0.8 20); [lia | reflexivity].
Defined.

End erlang_claims.

(** ** Segment impact *)

Section segment_impact.
Import SegmentImpactModel.
Local Open Scope Q_scope.

Lemma sum_fold_right xs : PyDict.sum xs == fold_right Qplus 0 xs.
Proof.
  unfold PyDict.sum.
  assert (H : forall a, fold_left Qplus xs a == a + fold_right Qplus 0 xs).
  { induction xs as [|x xs IH]; intros a; simpl; [ring|]. rewrite IH. ring. }
  rewrite H. ring.
Qed.

Lemma sum_values_total dist : PyDict.sum (PyDict.values dist) == total_of dist.
Proof. apply sum_fold_right. Qed.

Lemma adjustment_map_lookup a segment :
  default 0 (adjustment_map a !! segment) = adjustment_pct a segment.
Proof.
  unfold adjustment_map, adjustment_pct.
  destruct (String.eqb_spec segment "Highly Engaged") as [->|H1].
  { rewrite lookup_insert_eq. reflexivity. }
  rewrite lookup_insert_ne by congruence.
  destruct (String.eqb_spec segment "Reactive Engagers") as [->|H2].
  { rewrite lookup_insert_eq. reflexivity. }
  rewrite lookup_insert_ne by congruence.
  destruct (String.eqb_spec segment "Content & Complacent") as [->|H3].
  { rewrite lookup_insert_eq. reflexivity. }
  rewrite lookup_insert_ne by congruence.
  destruct (String.eqb_spec segment "Unengaged") as [->|H4].
  { rewrite lookup_insert_eq. reflexivity. }
  rewrite lookup_insert_ne by congruence.
  rewrite lookup_empty. reflexivity.
Qed.

(** The accumulation loop is the sum of the weighted adjusted rates. *)
Lemma weighted_rate_fold rates a total dist : forall acc,
  fold_left
    (fun total_weighted_rate '(segment, members) =>
       let base_rate := default 120 (rates !! segment) in
       let adjustment := default 0 (adjustment_map a !! segment) in
       let adjusted_rate := base_rate * (1 + adjustment / 100) in
       let weight := members / total in
       total_weighted_rate + adjusted_rate * weight)
    dist acc
  == acc + fold_right Qplus 0
       (List.map (fun sm => base_rate_per_1000 rates sm.1
                            * (1 + adjustment_pct a sm.1 / 100)
                            * (sm.2 / total)) dist).
Proof.
  induction dist as [|[segment members] dist IH]; intros acc; simpl.
  - ring.
  - rewrite IH. rewrite adjustment_map_lookup. unfold base_rate_per_1000.
    simpl. destruct (rates !! segment); simpl; ring.
Qed.

Lemma weighted_sum_total rates a dist t1 t2 :
  t1 == t2 ->
  fold_right Qplus 0
    (List.map (fun sm : string * Q => base_rate_per_1000 rates sm.1
                         * (1 + adjustment_pct a sm.1 / 100)
                         * (sm.2 / t1)) dist)
  == fold_right Qplus 0
    (List.map (fun sm : string * Q => base_rate_per_1000 rates sm.1
                         * (1 + adjustment_pct a sm.1 / 100)
                         * (sm.2 / t2)) dist).
Proof.
  intros Ht. induction dist as [|sm dist IH]; simpl; [reflexivity|].
  rewrite IH, Ht. reflexivity.
Qed.

Lemma calculate_segment_impact_nonzero self dist a :
  ~ total_of dist == 0 ->
  calculate_segment_impact self dist a
  == segment_impact_reference (segment_call_rates self) dist a.
Proof.
  intros Hne. unfold calculate_segment_impact, segment_impact_reference.
  cbv zeta.
  destruct (Qeq_bool (PyDict.sum (PyDict.values dist)) 0) eqn:Hz.
  { apply Qeq_bool_iff in Hz. rewrite sum_values_total in Hz. contradiction. }
  rewrite weighted_rate_fold. rewrite Qplus_0_l.
  rewrite (weighted_sum_total _ _ _ _ _ (sum_values_total dist)).
  reflexivity.
Qed.

Definition example_distribution : list (string * Q) :=
  [ ("Highly Engaged", 250); ("Reactive Engagers", 350);
    ("Content & Complacent", 250); ("Unengaged", 150) ].

Definition no_adjustments : SegmentAdjustments :=
  {| highly_engaged := 0; reactive_engagers := 0;
     content_complacent := 0; unengaged := 0 |}.

(** C8.  [calculate_segment_impact] is the reference rate whenever the
    total membership is positive, is 0 when the total is 0, and gives
    0.12275 calls per member on the 250/350/250/150 example. *)
Theorem calculate_segment_impact_reference :
  (forall self dist a,
     0 < total_of dist ->
     calculate_segment_impact self dist a
     == segment_impact_reference (segment_call_rates self) dist a) /\
  (forall self dist a,
     total_of dist == 0 -> calculate_segment_impact self dist a = 0) /\
  calculate_segment_impact __init__ example_distribution no_adjustments
  == 0.12275.
Proof.
  split; [|split].
  - intros self dist a Hpos. apply calculate_segment_impact_nonzero.
    intros H. rewrite H in Hpos. discriminate.
  - intros self dist a Hz. unfold calculate_segment_impact. cbv zeta.
    rewrite <- sum_values_total in Hz. apply Qeq_bool_iff in Hz.
    rewrite Hz. reflexivity.
  - vm_compute. reflexivity.
Qed.

(** The first part at the example distribution, whose total is 1000. *)
Lemma calculate_segment_impact_reference_witness :
  0 < total_of example_distribution /\
  calculate_segment_impact __init__ example_distribution no_adjustments
  == segment_impact_reference Settings.SEGMENT_CALL_RATES
       example_distribution no_adjustments.
Proof.
  split; [reflexivity|].
  apply (proj1 calculate_segment_impact_reference __init__). reflexivity.
Defined.

End segment_impact.

(** ** Adaptive weights *)

Section adaptive_weights.
Import PyFloat AdaptiveForecastModel.
Local Open Scope Q_scope.

Definition positive_weights (w : list (string * Q)) : Prop :=
  Forall (fun kv => 0 < kv.2) w.

Lemma alter_keys {V} (f : V -> V) k (w : list (string * V)) :
  List.map fst (PyDict.alter f k w) = List.map fst w.
Proof.
  unfold PyDict.alter. induction w as [|[k' v] w IH]; simpl; [reflexivity|].
  rewrite IH. destruct (String.eqb k' k); reflexivity.
Qed.

Lemma alter_positive f k w :
  (forall v, 0 < v -> 0 < f v) ->
  positive_weights w -> positive_weights (PyDict.alter f k w).
Proof.
  intros Hf. unfold positive_weights, PyDict.alter.
  induction 1 as [|[k' v] w Hv _ IH]; simpl; constructor; [|exact IH].
  destruct (String.eqb k' k); simpl in *; auto.
Qed.

Lemma adjust_keys w ce : List.map fst (adjust w ce) = List.map fst w.
Proof.
  destruct ce as [component error]. unfold adjust.
  destruct (PyDict.contains w component); [|reflexivity].
  destruct (Qlt_bool error 0.05); [apply alter_keys|].
  destruct (Qlt_bool 0.15 error); [apply alter_keys | reflexivity].
Qed.

Lemma adjust_positive w ce : positive_weights w -> positive_weights (adjust w ce).
Proof.
  intros Hw. destruct ce as [component error]. unfold adjust.
  destruct (PyDict.contains w component); [|exact Hw].
  destruct (Qlt_bool error 0.05).
  { apply alter_positive; [|exact Hw]. intros v Hv. nra. }
  destruct (Qlt_bool 0.15 error); [|exact Hw].
  apply alter_positive; [|exact Hw]. intros v Hv. nra.
Qed.

Lemma adjust_all_keys ces : forall w,
  List.map fst (fold_left adjust ces w) = List.map fst w.
Proof.
  induction ces as [|ce ces IH]; intros w; simpl; [reflexivity|].
  rewrite IH. apply adjust_keys.
Qed.

Lemma adjust_all_positive ces : forall w,
  positive_weights w -> positive_weights (fold_left adjust ces w).
Proof.
  induction ces as [|ce ces IH]; intros w Hw; simpl; [exact Hw|].
  apply IH, adjust_positive, Hw.
Qed.

Definition total (w : list (string * Q)) : Q :=
  fold_right Qplus 0 (PyDict.values w).

Lemma total_nonneg w : positive_weights w -> 0 <= total w.
Proof.
  unfold total. induction 1 as [|[k v] w Hv _ IH]; simpl in *; lra.
Qed.

Lemma total_positive w : positive_weights w -> w <> [] -> 0 < total w.
Proof.
  intros Hw Hne. destruct Hw as [|[k v] w Hv Hw]; [congruence|].
  pose proof (total_nonneg w Hw). unfold total in *. simpl in *. lra.
Qed.

Lemma weight_le_total w :
  positive_weights w -> Forall (fun kv => kv.2 <= total w) w.
Proof.
  induction 1 as [|[k v] w Hv Hw IH]; constructor.
  - pose proof (total_nonneg w Hw). unfold total in *. simpl in *. lra.
  - eapply Forall_impl; [exact IH|]. intros [k' v'] H.
    unfold total in *. simpl in *. lra.
Qed.

Lemma normalised_total t w :
  0 < t ->
  total (List.map (fun kv => (kv.1, kv.2 / t)) w) == total w / t.
Proof.
  intros Ht. unfold total. induction w as [|[k v] w IH]; simpl in *.
  - field. lra.
  - rewrite IH. field. lra.
Qed.

(** The invariant of the weights: the four components, each positive,
    summing to one. *)
Definition weights_ok (w : list (string * Q)) : Prop :=
  List.map fst w = ["seasonal"; "trend"; "growth"; "ml_prediction"] /\
  positive_weights w /\ total w == 1.

Lemma init_weights_ok : weights_ok __init__.
Proof.
  split; [reflexivity|]. split; [|reflexivity].
  repeat constructor.
Qed.

Lemma update_weights_ok w recent_accuracy :
  weights_ok w -> weights_ok (update_weights w recent_accuracy).
Proof.
  intros (Hk & Hp & _). unfold update_weights. cbv zeta.
  set (ces := _calculate_component_errors recent_accuracy).
  set (w' := fold_left adjust ces w).
  assert (Hk' : List.map fst w' = ["seasonal"; "trend"; "growth"; "ml_prediction"]).
  { unfold w'. rewrite adjust_all_keys. exact Hk. }
  assert (Hp' : positive_weights w') by (apply adjust_all_positive, Hp).
  assert (Ht : 0 < total w').
  { apply total_positive; [exact Hp'|]. intros ->. discriminate. }
  assert (He : PyDict.sum (PyDict.values w') == total w') by apply sum_fold_right.
  assert (Hs : 0 < PyDict.sum (PyDict.values w')) by (rewrite He; exact Ht).
  unfold Qlt_bool.
  destruct (Qle_bool (PyDict.sum (PyDict.values w')) 0) eqn:Hle.
  { apply Qle_bool_iff in Hle. lra. }
  simpl. split; [|split].
  - rewrite <- Hk'. rewrite List.map_map. reflexivity.
  - unfold positive_weights in *. apply Forall_map.
    eapply Forall_impl; [exact Hp'|]. intros [k v] Hv. simpl in *.
    apply Qlt_shift_div_l; lra.
  - rewrite normalised_total by exact Hs. rewrite He. field. lra.
Qed.

Lemma weights_ok_bounds w :
  weights_ok w ->
  PyDict.sum (PyDict.values w) == 1 /\
  Forall (fun kv => 0 <= kv.2 /\ kv.2 <= 1) w.
Proof.
  intros (_ & Hp & Ht). split.
  - rewrite sum_fold_right. exact Ht.
  - pose proof (weight_le_total w Hp) as Hle.
    unfold positive_weights in Hp.
    rewrite Forall_forall in Hp, Hle. apply Forall_forall. intros kv Hin.
    specialize (Hp kv Hin). specialize (Hle kv Hin). simpl in *. lra.
Qed.

(** C7.  From the initial weights, after any sequence of [update_weights]
    calls with arbitrary accuracy dictionaries, the model still holds the
    four components, the weights sum to 1 and each lies in [0, 1]. *)
Theorem update_weights_normalised (updates : list (gmap string Q)) :
  let w := fold_left update_weights updates __init__ in
  List.map fst w = ["seasonal"; "trend"; "growth"; "ml_prediction"] /\
  PyDict.sum (PyDict.values w) == 1 /\
  Forall (fun kv => 0 <= kv.2 /\ kv.2 <= 1) w.
Proof.
  intros w.
  assert (Hok : weights_ok w).
  { unfold w. generalize init_weights_ok. generalize __init__.
    induction updates as [|u us IH]; intros w0 H0; simpl; [exact H0|].
    apply IH, update_weights_ok, H0. }
  split; [apply Hok | apply weights_ok_bounds, Hok].
Qed.

End adaptive_weights.

(** ** Percentile bands *)

Section percentile_order.
Import Numpy.
Local Open Scope Q_scope.

Lemma nth_sorted (s : list Z) :
  StronglySorted Z.le s ->
  forall i j, (i <= j < length s)%nat -> (nth i s 0 <= nth j s 0)%Z.
Proof.
  induction 1 as [|x s Hs IH Hx]; intros i j Hij; simpl in Hij; [lia|].
  destruct j as [|j]; [replace i with O by lia; reflexivity|].
  destruct i as [|i]; simpl.
  - rewrite Forall_forall in Hx. apply Hx.
    apply list_elem_of_In, nth_In. lia.
  - apply IH. lia.
Qed.

Lemma item_sorted (s : list Z) i j :
  StronglySorted Z.le s ->
  (0 <= i <= j)%Z -> (j < Z.of_nat (length s))%Z ->
  item s i <= item s j.
Proof.
  intros Hs Hij Hj. unfold item. rewrite <- Zle_Qle.
  apply nth_sorted; [exact Hs | lia].
Qed.

Lemma lerp_linear a b t : _lerp a b t == a + (b - a) * t.
Proof. unfold _lerp. cbv zeta. destruct (Qle_bool 0.5 t); ring. Qed.

Lemma floor_bounds h :
  inject_Z (Qfloor h) <= h /\ h < inject_Z (Qfloor h) + 1.
Proof.
  split; [apply Qfloor_le|].
  pose proof (Qlt_floor h) as H. rewrite inject_Z_plus in H. exact H.
Qed.

(** At a virtual index within the array the interpolation lies between
    two neighbouring order statistics. *)
Lemma interpolate_below (s : list Z) h :
  let n := Z.of_nat (length s) in
  0 <= h -> h < inject_Z (n - 1) ->
  (0 <= Qfloor h)%Z /\ (Qfloor h + 1 <= n - 1)%Z /\
  interpolate s h ==
    item s (Qfloor h)
    + (item s (Qfloor h + 1) - item s (Qfloor h)) * (h - inject_Z (Qfloor h)).
Proof.
  intros n H0 Hn.
  assert (Hf0 : (0 <= Qfloor h)%Z).
  { rewrite <- (Qfloor_Z 0). apply Qfloor_resp_le. exact H0. }
  assert (Hf1 : (Qfloor h + 1 <= n - 1)%Z).
  { pose proof (Qfloor_le h) as Hle.
    assert (inject_Z (Qfloor h) < inject_Z (n - 1)) as Hlt by lra.
    rewrite <- Zlt_Qlt in Hlt. lia. }
  split; [exact Hf0|]. split; [exact Hf1|].
  unfold interpolate. cbv zeta. fold n.
  destruct (Qle_bool (inject_Z (n - 1)) h) eqn:Hab.
  { apply Qle_bool_iff in Hab. lra. }
  apply lerp_linear.
Qed.

Lemma interpolate_above (s : list Z) h :
  let n := Z.of_nat (length s) in
  inject_Z (n - 1) <= h ->
  interpolate s h == item s (n - 1).
Proof.
  intros n Hn. unfold interpolate. cbv zeta. fold n.
  apply Qle_bool_iff in Hn. rewrite Hn. rewrite lerp_linear. ring.
Qed.

Lemma interpolate_mono (s : list Z) h1 h2 :
  StronglySorted Z.le s -> s <> [] ->
  0 <= h1 -> h1 <= h2 ->
  interpolate s h1 <= interpolate s h2.
Proof.
  intros Hs Hne H0 H12.
  set (n := Z.of_nat (length s)).
  assert (Hn : (1 <= n)%Z).
  { unfold n. destruct s; [congruence | simpl; lia]. }
  destruct (Qlt_le_dec h2 (inject_Z (n - 1))) as [Hb2|Ha2].
  - (* both within the array *)
    assert (Hb1 : h1 < inject_Z (n - 1)) by lra.
    destruct (interpolate_below s h1 H0 Hb1) as (Hf1 & Hg1 & ->).
    destruct (interpolate_below s h2 ltac:(lra) Hb2) as (Hf2 & Hg2 & ->).
    fold n in Hg1, Hg2.
    pose proof (floor_bounds h1) as [Hl1 Hu1].
    pose proof (floor_bounds h2) as [Hl2 Hu2].
    assert (Hk : (Qfloor h1 <= Qfloor h2)%Z) by (apply Qfloor_resp_le, H12).
    pose proof (item_sorted s (Qfloor h1) (Qfloor h1 + 1) Hs ltac:(lia) ltac:(fold n; lia)) as Hs1.
    pose proof (item_sorted s (Qfloor h2) (Qfloor h2 + 1) Hs ltac:(lia) ltac:(fold n; lia)) as Hs2.
    destruct (Z.eq_dec (Qfloor h1) (Qfloor h2)) as [He|Hne'].
    + rewrite He in *. nra.
    + pose proof (item_sorted s (Qfloor h1 + 1) (Qfloor h2) Hs ltac:(lia) ltac:(fold n; lia)) as Hs3.
      nra.
  - rewrite (interpolate_above s h2 Ha2). fold n.
    destruct (Qlt_le_dec h1 (inject_Z (n - 1))) as [Hb1|Ha1].
    + destruct (interpolate_below s h1 H0 Hb1) as (Hf1 & Hg1 & ->).
      fold n in Hg1.
      pose proof (floor_bounds h1) as [Hl1 Hu1].
      pose proof (item_sorted s (Qfloor h1) (Qfloor h1 + 1) Hs ltac:(lia) ltac:(fold n; lia)) as Hs1.
      pose proof (item_sorted s (Qfloor h1 + 1) (n - 1) Hs ltac:(lia) ltac:(fold n; lia)) as Hs3.
      nra.
    + rewrite (interpolate_above s h1 Ha1). fold n. lra.
Qed.

(** Percentiles of one sample are ordered like their ranks. *)
Lemma percentile_mono (sample : list Z) q1 q2 :
  sample <> [] -> 0 <= q1 -> q1 <= q2 ->
  percentile sample q1 <= percentile sample q2.
Proof.
  intros Hne H0 H12. unfold percentile. cbv zeta.
  set (s := merge_sort Z.le sample).
  assert (Hlen : length s = length sample).
  { unfold s. apply Permutation_length, merge_sort_Permutation. }
  assert (Hn : (0 <= Z.of_nat (length s) - 1)%Z).
  { rewrite Hlen. destruct sample; [congruence | simpl; lia]. }
  assert (0 <= inject_Z (Z.of_nat (length s) - 1)) as Hq
    by (rewrite <- (Zle_Qle 0); exact Hn).
  apply interpolate_mono.
  - unfold s. apply StronglySorted_merge_sort; apply _.
  - intros Hs. rewrite Hs in Hlen. destruct sample; [congruence | discriminate].
  - assert (0 <= q1 / 100) by (apply Qle_shift_div_l; [reflexivity | lra]).
    apply Qmult_le_0_compat; assumption.
  - assert (q1 / 100 <= q2 / 100).
    { unfold Qdiv. apply Qmult_le_compat_r; [exact H12|].
      apply Qle_bool_iff. reflexivity. }
    nra.
Qed.

Lemma percentile_axis0_lookup values q j x :
  percentile_axis0 values q !! j = Some x ->
  values <> [] /\ x = percentile (column values j) q.
Proof.
  unfold percentile_axis0. destruct values as [|row rows]; [discriminate|].
  intros H. split; [discriminate|].
  rewrite list_lookup_fmap in H.
  destruct (seq 0 (length row) !! j) as [j'|] eqn:Hj; [|discriminate].
  apply lookup_seq in Hj. destruct Hj as [-> _]. simpl in H.
  injection H as <-. reflexivity.
Qed.

Lemma percentile_axis0_length values q1 q2 :
  length (percentile_axis0 values q1) = length (percentile_axis0 values q2).
Proof.
  unfold percentile_axis0. destruct values; [reflexivity|].
  rewrite !length_map. reflexivity.
Qed.

Lemma percentile_axis0_mono values q1 q2 j a :
  0 <= q1 -> q1 <= q2 ->
  percentile_axis0 values q1 !! j = Some a ->
  exists b, percentile_axis0 values q2 !! j = Some b /\ a <= b.
Proof.
  intros H0 H12 Ha.
  assert (Hlt : (j < length (percentile_axis0 values q2))%nat).
  { rewrite (percentile_axis0_length values q2 q1).
    apply lookup_lt_Some in Ha. exact Ha. }
  apply lookup_lt_is_Some in Hlt. destruct Hlt as [b Hb].
  exists b. split; [exact Hb|].
  apply percentile_axis0_lookup in Ha, Hb.
  destruct Ha as [Hne ->], Hb as [_ ->].
  apply percentile_mono; [|exact H0|exact H12].
  unfold column. destruct values; [congruence | discriminate].
Qed.

End percentile_order.

Section simulation_bands.
Import PyFloat Numpy MonteCarloSimulator.
Local Open Scope Q_scope.

(** The five percentiles of one metric, month by month. *)
Definition ordered_bands (pb : gmap string (list Q)) : Prop :=
  exists p10 p25 median p75 p90,
    pb !! "p10" = Some p10 /\ pb !! "p25" = Some p25 /\
    pb !! "median" = Some median /\
    pb !! "p75" = Some p75 /\ pb !! "p90" = Some p90 /\
    forall month a, p10 !! month = Some a ->
      exists b c d e,
        p25 !! month = Some b /\ median !! month = Some c /\
        p75 !! month = Some d /\ p90 !! month = Some e /\
        a <= b /\ b <= c /\ c <= d /\ d <= e.

Lemma bands_ordered values : ordered_bands (bands values).
Proof.
  exists (percentile_axis0 values 10), (percentile_axis0 values 25),
         (percentile_axis0 values 50), (percentile_axis0 values 75),
         (percentile_axis0 values 90).
  do 5 (split; [reflexivity|]).
  intros month a Ha.
  destruct (percentile_axis0_mono values 10 25 month a) as (b & Hb & Hab);
    [apply Qle_bool_iff; reflexivity .. | exact Ha |].
  destruct (percentile_axis0_mono values 25 50 month b) as (c & Hc & Hbc);
    [apply Qle_bool_iff; reflexivity .. | exact Hb |].
  destruct (percentile_axis0_mono values 50 75 month c) as (d & Hd & Hcd);
    [apply Qle_bool_iff; reflexivity .. | exact Hc |].
  destruct (percentile_axis0_mono values 75 90 month d) as (e & He & Hde);
    [apply Qle_bool_iff; reflexivity .. | exact Hd |].
  exists b, c, d, e. repeat split; assumption.
Qed.

(** C9.  Whatever the base scenario, the iteration count and the random
    draws, every metric of the bands that [run_forecast_simulation]
    produces has its five percentiles, and in every month they satisfy
    [p10 <= p25 <= median <= p75 <= p90]. *)
Theorem percentile_bands_ordered
    base_scenario iterations rng percentile_results rng' :
  run_forecast_simulation base_scenario iterations rng
    = Ok (percentile_results, rng') ->
  forall metric pb,
    percentile_results !! metric = Some pb -> ordered_bands pb.
Proof.
  unfold run_forecast_simulation. intros H metric pb Hpb.
  apply bind_Ok in H. destruct H as ([results rng1] & _ & H).
  injection H as <- _.
  apply lookup_omap_Some in Hpb. destruct Hpb as (values & Hv & _).
  destruct values; [discriminate|]. injection Hv as <-.
  apply bands_ordered.
Qed.

Definition example_scenario : gmap string pyval :=
  <["forecast_months" := PyInt 3]>
  (<["member_growth_rate" := PyFloat 2.5]>
  (<["base_members" := PyFloat 10000]>
  (<["calls_per_member" := PyFloat 0.15]>
  (<["avg_handle_time" := PyFloat 6.2]>
  (<["seasonality_factor" := PyFloat 1]> ∅))))).

(** Draws that cycle through 0, 0.1, ..., 0.6. *)
Definition example_rng : rng_state :=
  fun n => inject_Z (Z.of_nat (n mod 7)) / 10.

(** Whether a simulation returned bands for a metric. *)
Definition has_metric
    (simulated : res (gmap string (gmap string (list Q)) * rng_state))
    (metric : string) : bool :=
  match simulated with
  | Ok (percentile_results, _) =>
      match percentile_results !! metric with Some _ => true | None => false end
  | Raise _ => false
  end.

(** The theorem at a three-month scenario with 100 iterations. *)
Lemma percentile_bands_ordered_witness :
  exists percentile_results rng' pb,
    run_forecast_simulation example_scenario 100 example_rng
      = Ok (percentile_results, rng') /\
    percentile_results !! "predicted_members" = Some pb /\
    ordered_bands pb.
Proof.
  assert (Hm : has_metric
                 (run_forecast_simulation example_scenario 100 example_rng)
                 "predicted_members" = true) by (vm_compute; reflexivity).
  destruct (run_forecast_simulation example_scenario 100 example_rng)
    as [[percentile_results rng']|e] eqn:Hrun; [|discriminate Hm].
  unfold has_metric in Hm.
  destruct (percentile_results !! "predicted_members") as [pb|] eqn:Hpb;
    [|discriminate Hm].
  exists percentile_results, rng', pb.
  split; [reflexivity|]. split; [exact Hpb|].
  exact (percentile_bands_ordered _ _ _ _ _ Hrun _ _ Hpb).
Defined.

End simulation_bands.

(** ** Merging the confidence intervals *)

Section confidence_intervals.
Import PyFloat ConfidenceIntervals.
Local Open Scope Q_scope.

Definition band_keys : gset string := {[ "p10"; "p25"; "p75"; "p90" ]}.

Lemma confidence_dict_keys ci metric i d :
  confidence_dict ci metric i = Ok d ->
  dom d = band_keys /\ d !! "median" = None.
Proof.
  unfold confidence_dict. intros H.
  apply bind_Ok in H. destruct H as (p10 & _ & H).
  apply bind_Ok in H. destruct H as (p25 & _ & H).
  apply bind_Ok in H. destruct H as (p75 & _ & H).
  apply bind_Ok in H. destruct H as (p90 & _ & H).
  injection H as <-. split.
  - rewrite !dom_insert_L, dom_empty_L. unfold band_keys. set_solver.
  - reflexivity.
Qed.

(** What [_apply_confidence_intervals] leaves at one index. *)
Definition merged (ci : gmap string (gmap string (list Q)))
    (i : nat) (r r' : ForecastResult) : Prop :=
  if (i <? simulated_months ci)%nat then
    exists m c s,
      members_confidence r' = Some m /\ calls_confidence r' = Some c /\
      staff_confidence r' = Some s /\
      dom m = band_keys /\ dom c = band_keys /\ dom s = band_keys /\
      m !! "median" = None /\ c !! "median" = None /\ s !! "median" = None
  else r' = r.

Lemma apply_from_spec ci forecast_results : forall i results',
  apply_from ci i forecast_results = Ok results' ->
  length results' = length forecast_results /\
  forall k r', results' !! k = Some r' ->
    exists r, forecast_results !! k = Some r /\ merged ci (i + k) r r'.
Proof.
  induction forecast_results as [|result rest IH]; intros i results' H.
  - injection H as <-. split; [reflexivity|]. intros k r' Hk. discriminate.
  - cbn [apply_from] in H.
    apply bind_Ok in H. destruct H as (result' & Hres & H).
    apply bind_Ok in H. destruct H as (rest' & Hrest & H).
    injection H as <-.
    destruct (IH _ _ Hrest) as [Hlen Hk].
    split; [simpl; congruence|].
    intros [|k] r' Hr'.
    + injection Hr' as <-. exists result. split; [reflexivity|].
      unfold merged. rewrite Nat.add_0_r.
      destruct (i <? simulated_months ci)%nat.
      * apply bind_Ok in Hres. destruct Hres as (m & Hm & Hres).
        apply bind_Ok in Hres. destruct Hres as (c & Hc & Hres).
        apply bind_Ok in Hres. destruct Hres as (s & Hs & Hres).
        injection Hres as <-.
        apply confidence_dict_keys in Hm, Hc, Hs.
        exists m, c, s. simpl. intuition.
      * congruence.
    + destruct (Hk k r' Hr') as (r & Hr & Hm).
      exists r. split; [exact Hr|].
      replace (i + S k)%nat with (S i + k)%nat by lia. exact Hm.
Qed.

(** C10.  When the merge returns, the results keep their number and
    order; a result within the simulated months carries three confidence
    dictionaries whose keys are exactly p10, p25, p75 and p90, so the
    median is not attached; a result beyond them is unchanged, so its
    confidence fields stay as they were ([None] for a fresh result). *)
Theorem apply_confidence_intervals_keys forecast_results ci results' :
  _apply_confidence_intervals forecast_results ci = Ok results' ->
  length results' = length forecast_results /\
  forall i r', results' !! i = Some r' ->
    exists r, forecast_results !! i = Some r /\ merged ci i r r'.
Proof. apply apply_from_spec. Qed.

Definition example_result : ForecastResult :=
  {| fr_month := "2027-01"; predicted_members := 10250;
     predicted_calls := 1258; calls_per_member := 0.12275;
     required_staff := 110; required_supervisors := 13;
     agent_utilization := 0.95; service_level := 0.9;
     members_confidence := None; calls_confidence := None;
     staff_confidence := None |}.

Definition example_band (x : Q) : gmap string (list Q) :=
  <["p10" := [x]]> (<["p25" := [x + 1]]> (<["median" := [x + 2]]>
  (<["p75" := [x + 3]]> (<["p90" := [x + 4.5]]> ∅)))).

Definition example_intervals : gmap string (gmap string (list Q)) :=
  <["predicted_members" := example_band 10000]>
  (<["predicted_calls" := example_band 1200]>
  (<["required_staff" := example_band 100]> ∅)).

(** The theorem on two results and bands for one month. *)
Lemma apply_confidence_intervals_keys_witness :
  exists r0 r1,
    _apply_confidence_intervals [example_result; example_result]
      example_intervals = Ok [r0; r1] /\
    merged example_intervals 0 example_result r0 /\
    merged example_intervals 1 example_result r1 /\
    members_confidence r1 = None.
Proof.
  destruct (_apply_confidence_intervals [example_result; example_result]
              example_intervals) as [results'|e] eqn:Happly;
    [|vm_compute in Happly; discriminate].
  destruct (apply_confidence_intervals_keys _ _ _ Happly) as [Hlen Hk].
  destruct results' as [|r0 [|r1 [|]]]; try discriminate.
  exists r0, r1. split; [reflexivity|].
  destruct (Hk 0%nat r0 eq_refl) as (r & [= <-] & H0).
  destruct (Hk 1%nat r1 eq_refl) as (r & [= <-] & H1).
  split; [exact H0|]. split; [exact H1|].
  unfold merged in H1. change (1 <? simulated_months example_intervals)%nat
    with false in H1. rewrite H1. reflexivity.
Defined.

End confidence_intervals.

(** ** The simulation and the merge return *)

Section simulation_returns.
Import PyFloat Numpy MonteCarloSimulator ConfidenceIntervals.
Local Open Scope Q_scope.

(** A scenario dictionary on which the simulation can run: the three
    entries that every iteration updates are present, and the number of
    months, when given, is an int. *)
Definition simulation_ready (base : gmap string pyval) : Prop :=
  is_Some (base !! "member_growth_rate") /\
  is_Some (base !! "seasonality_factor") /\
  is_Some (base !! "avg_handle_time") /\
  forall v, base !! "forecast_months" = Some v -> exists n, v = PyInt n.

Definition months_of (base : gmap string pyval) : nat :=
  match default (PyInt 12) (base !! "forecast_months") with
  | PyInt n => Z.to_nat n
  | PyFloat _ => 12
  end.

Lemma range_from_length a b : length (range_from a b) = Z.to_nat (b - a).
Proof. unfold range_from. rewrite length_map, length_seq. reflexivity. Qed.

Lemma single_iteration_rows scenario :
  (forall v, scenario !! "forecast_months" = Some v -> exists n, v = PyInt n) ->
  exists ir, _single_iteration scenario = Ok ir /\
    forall metric, metric ∈ metrics ->
      exists row, ir !! metric = Some row /\ length row = months_of scenario.
Proof.
  intros Hm. unfold _single_iteration, months_of.
  destruct (scenario !! "forecast_months") as [v|] eqn:Hv.
  - destruct (Hm v eq_refl) as [n ->]. cbn [default as_int mbind res_bind].
    eexists. split; [reflexivity|].
    intros metric Hin. unfold metrics in Hin.
    repeat (apply elem_of_cons in Hin; destruct Hin as [->|Hin]);
      [| | |apply elem_of_nil in Hin; contradiction];
      (eexists; split; [reflexivity|]);
      rewrite length_map, range_from_length; f_equal; lia.
  - cbn [default as_int mbind res_bind].
    eexists. split; [reflexivity|].
    intros metric Hin. unfold metrics in Hin.
    repeat (apply elem_of_cons in Hin; destruct Hin as [->|Hin]);
      [| | |apply elem_of_nil in Hin; contradiction];
      (eexists; split; [reflexivity|]);
      rewrite length_map, range_from_length; reflexivity.
Qed.

Lemma update_item_Ok k f d :
  is_Some (d !! k) ->
  exists x, update_item k f d = Ok (<[k := PyFloat x]> d).
Proof.
  intros [v Hv]. unfold update_item. rewrite Hv. simpl. eauto.
Qed.

(** The rows collected so far: [k] rows of [L] months per metric. *)
Definition rows_ok (L k : nat) (results : gmap string (list (list Z))) : Prop :=
  forall metric, metric ∈ metrics ->
    exists values, results !! metric = Some values /\
      length values = k /\ Forall (fun row => length row = L) values.

Lemma iteration_returns base results rng k :
  simulation_ready base -> rows_ok (months_of base) k results ->
  exists results' rng',
    iteration base (results, rng) = Ok (results', rng') /\
    rows_ok (months_of base) (S k) results'.
Proof.
  intros (Hg & Hs & Ha & Hm) Hrows. unfold iteration, normal.
  destruct (update_item_Ok "member_growth_rate" (fun x => x + rng 0%nat) base Hg)
    as [x1 ->]. cbn [mbind res_bind].
  set (d1 := <["member_growth_rate" := PyFloat x1]> base).
  assert (Hs1 : is_Some (d1 !! "seasonality_factor")).
  { unfold d1. rewrite lookup_insert_ne by discriminate. exact Hs. }
  destruct (update_item_Ok "seasonality_factor" (fun x => x * rng 1%nat) d1 Hs1)
    as [x2 ->]. cbn [mbind res_bind].
  set (d2 := <["seasonality_factor" := PyFloat x2]> d1).
  assert (Ha2 : is_Some (d2 !! "avg_handle_time")).
  { unfold d2, d1. rewrite !lookup_insert_ne by discriminate. exact Ha. }
  destruct (update_item_Ok "avg_handle_time" (fun x => x * rng 2%nat) d2 Ha2)
    as [x3 ->]. cbn [mbind res_bind].
  set (d3 := <["avg_handle_time" := PyFloat x3]> d2).
  assert (Hfm : d3 !! "forecast_months" = base !! "forecast_months").
  { unfold d3, d2, d1. rewrite !lookup_insert_ne by discriminate. reflexivity. }
  destruct (single_iteration_rows d3) as (ir & -> & Hir).
  { intros v Hv. apply Hm. rewrite <- Hfm. exact Hv. }
  cbn [mbind res_bind]. eexists _, _. split; [reflexivity|].
  intros metric Hin.
  destruct (Hrows metric Hin) as (values & Hv & Hlen & Hall).
  destruct (Hir metric Hin) as (row & Hrow & Hrl).
  exists (values ++ [row]). rewrite map_lookup_imap, Hv. simpl. rewrite Hrow.
  split; [reflexivity|]. split.
  - rewrite length_app. simpl. lia.
  - apply Forall_app. split; [exact Hall|]. constructor; [|constructor].
    rewrite Hrl. unfold months_of. rewrite Hfm. reflexivity.
Qed.

Lemma iterate_returns base n : forall results rng k,
  simulation_ready base -> rows_ok (months_of base) k results ->
  exists results' rng',
    iterate base n (results, rng) = Ok (results', rng') /\
    rows_ok (months_of base) (n + k) results'.
Proof.
  induction n as [|n IH]; intros results rng k Hb Hrows.
  - exists results, rng. split; [reflexivity | exact Hrows].
  - cbn [iterate].
    destruct (iteration_returns base results rng k Hb Hrows)
      as (r1 & g1 & -> & Hr1).
    cbn [mbind res_bind].
    destruct (IH r1 g1 (S k) Hb Hr1) as (r2 & g2 & -> & Hr2).
    exists r2, g2. split; [reflexivity|].
    replace (S n + k)%nat with (n + S k)%nat by lia. exact Hr2.
Qed.

Lemma empty_results_ok L : rows_ok L 0 empty_results.
Proof.
  intros metric Hin. unfold metrics in Hin. exists [].
  repeat (apply elem_of_cons in Hin; destruct Hin as [->|Hin]);
    [| | |apply elem_of_nil in Hin; contradiction];
    (split; [reflexivity|]; split; [reflexivity | constructor]).
Qed.

(** Bands of [L] months each, for every metric. *)
Definition bands_ok (L : nat) (pr : gmap string (gmap string (list Q))) : Prop :=
  forall metric, metric ∈ metrics ->
    exists row values, pr !! metric = Some (bands (row :: values)) /\
                       length row = L.

(** On a ready scenario and with at least one iteration the simulation
    returns bands for the three metrics, one entry per forecast month. *)
Lemma run_forecast_simulation_returns base iterations rng :
  simulation_ready base -> (1 <= iterations)%Z ->
  exists pr rng',
    run_forecast_simulation base iterations rng = Ok (pr, rng') /\
    bands_ok (months_of base) pr.
Proof.
  intros Hb Hit. unfold run_forecast_simulation.
  destruct (iterate_returns base (Z.to_nat iterations) empty_results rng 0 Hb
              (empty_results_ok _)) as (results & rng' & -> & Hrows).
  cbn [mbind res_bind]. eexists _, rng'. split; [reflexivity|].
  intros metric Hin.
  destruct (Hrows metric Hin) as (values & Hv & Hlen & Hall).
  destruct values as [|row values]; [simpl in Hlen; lia|].
  exists row, values. rewrite lookup_omap, Hv. split; [reflexivity|].
  inversion Hall; assumption.
Qed.

Lemma percentile_axis0_row_length row values q :
  length (percentile_axis0 (row :: values) q) = length row.
Proof. unfold percentile_axis0. rewrite length_map, length_seq. reflexivity. Qed.

Lemma bands_ok_simulated_months L pr :
  bands_ok L pr -> simulated_months pr = L.
Proof.
  intros H. destruct (H "predicted_members") as (row & values & Hpr & Hlen).
  { unfold metrics. apply elem_of_cons. left. reflexivity. }
  unfold simulated_months. rewrite Hpr.
  change (default ∅ (Some (bands (row :: values))) !! "p25")
    with (Some (percentile_axis0 (row :: values) 25)).
  cbn [default id from_option].
  rewrite (percentile_axis0_row_length row values 25). exact Hlen.
Qed.

Lemma confidence_dict_returns L pr metric i :
  bands_ok L pr -> metric ∈ metrics -> (i < L)%nat ->
  exists d, confidence_dict pr metric i = Ok d.
Proof.
  intros H Hin Hi. destruct (H metric Hin) as (row & values & Hpr & Hlen).
  assert (Hband : forall p q,
             bands (row :: values) !! p = Some (percentile_axis0 (row :: values) q) ->
             exists z, band_at pr metric p i = Ok z).
  { intros p q Hp. unfold band_at. rewrite Hpr. cbn [getitem mbind res_bind].
    rewrite Hp. cbn [getitem mbind res_bind].
    destruct (percentile_axis0 (row :: values) q !! i) as [x|] eqn:Hx.
    - simpl. eauto.
    - apply lookup_ge_None in Hx.
      rewrite percentile_axis0_row_length in Hx. lia. }
  unfold confidence_dict.
  destruct (Hband "p10" 10 eq_refl) as [z1 ->]. cbn [mbind res_bind].
  destruct (Hband "p25" 25 eq_refl) as [z2 ->]. cbn [mbind res_bind].
  destruct (Hband "p75" 75 eq_refl) as [z3 ->]. cbn [mbind res_bind].
  destruct (Hband "p90" 90 eq_refl) as [z4 ->]. cbn [mbind res_bind].
  eauto.
Qed.

(** The merge returns on the bands of a simulation. *)
Lemma apply_confidence_intervals_returns L pr forecast_results :
  bands_ok L pr ->
  exists results', _apply_confidence_intervals forecast_results pr = Ok results'.
Proof.
  intros H. unfold _apply_confidence_intervals. generalize 0%nat.
  induction forecast_results as [|result rest IH]; intros i; [simpl; eauto|].
  cbn [apply_from]. rewrite (bands_ok_simulated_months L pr H).
  destruct (IH (S i)) as [rest' Hrest].
  destruct (Nat.ltb_spec i L) as [Hi|Hi].
  - destruct (confidence_dict_returns L pr "predicted_members" i H) as [m ->];
      [unfold metrics; set_solver | exact Hi |].
    destruct (confidence_dict_returns L pr "predicted_calls" i H) as [c ->];
      [unfold metrics; set_solver | exact Hi |].
    destruct (confidence_dict_returns L pr "required_staff" i H) as [s ->];
      [unfold metrics; set_solver | exact Hi |].
    cbn [mbind res_bind]. rewrite Hrest. simpl. eauto.
  - cbn [mbind res_bind]. rewrite Hrest. simpl. eauto.
Qed.

End simulation_returns.

(** ** The scenario fingerprint *)

Section scenario_fingerprint.
Import ForecastEngine.
Local Open Scope Q_scope.

(** A scenario with other values in the three fields that the fingerprint
    does not print. *)
Definition with_unprinted (s : ForecastScenarioCreate)
    (d : option string) (r : RegulatoryChanges) (c : Q)
  : ForecastScenarioCreate :=
  {| name := name s; description := d; base_month := base_month s;
     forecast_months := forecast_months s;
     member_growth_rate := member_growth_rate s;
     segment_adjustments := segment_adjustments s;
     call_volume_factors := call_volume_factors s;
     staffing_parameters := staffing_parameters s;
     regulatory_changes := r;
     monte_carlo_iterations := monte_carlo_iterations s;
     confidence_level := c |}.

Lemma scenario_str_unprinted lib s d r c :
  scenario_str lib (with_unprinted s d r c) = scenario_str lib s.
Proof. reflexivity. Qed.

Definition default_staffing : StaffingParameters :=
  {| avg_handle_time := 6.2; hours_per_agent := 160;
     utilization_target := 0.85; supervisor_ratio := 0.12;
     target_service_level := 0.8; target_answer_time := 20 |}.

Definition no_regulatory_changes : RegulatoryChanges :=
  {| benefit_changes := false; formulary_updates := false;
     network_changes := false; premium_changes := false |}.

(** A one-month scenario with the defaults of the schema and the least
    admitted number of Monte Carlo iterations. *)
Definition scenario_a : ForecastScenarioCreate :=
  {| name := "baseline"; description := None;
     base_month := {| year := 2027; month := 1; day := 1 |};
     forecast_months := 1; member_growth_rate := 2.5;
     segment_adjustments := no_adjustments;
     call_volume_factors :=
       {| seasonal_factor := 1; engagement_impact := 1;
          product_mix_impact := 1; regulatory_impact := 1 |};
     staffing_parameters := default_staffing;
     regulatory_changes := no_regulatory_changes;
     monte_carlo_iterations := 100; confidence_level := 0.9 |}.

Definition scenario_b : ForecastScenarioCreate :=
  with_unprinted scenario_a (Some "after the formulary update")
    {| benefit_changes := false; formulary_updates := true;
       network_changes := false; premium_changes := false |}
    0.95.

(** C1.  The fingerprint prints eight fields and leaves out
    [description], [regulatory_changes] and [confidence_level]: two
    scenarios that differ in all three have one fingerprint input and one
    hash, whatever the float printer and the digest are. *)
Theorem scenario_hash_misses_fields (lib : Libraries) :
  description scenario_a <> description scenario_b /\
  regulatory_changes scenario_a <> regulatory_changes scenario_b /\
  ~ confidence_level scenario_a == confidence_level scenario_b /\
  scenario_str lib scenario_a = scenario_str lib scenario_b /\
  _generate_scenario_hash lib scenario_a = _generate_scenario_hash lib scenario_b.
Proof.
  split; [discriminate|]. split; [discriminate|].
  split; [intros H; vm_compute in H; discriminate|].
  split; reflexivity.
Qed.

End scenario_fingerprint.

(** ** Accuracy metrics on zero actuals *)

Section accuracy.
Import Accuracy.
Local Open Scope float_scope.

Lemma accuracy_empty predicted :
  calculate_accuracy_metrics [] predicted
  = {| mape := 0; mae := 0; rmse := 0; wmape := 0; smape := 0; r_squared := 0 |}.
Proof. reflexivity. Qed.

(** C6.  The weighted and the symmetric error have no guard for a zero
    denominator.  With one actual value of 0 forecast as 0 both are NaN;
    with actual values 0, 0 forecast as 1, 2 the weighted error is
    infinite. *)
Theorem accuracy_metrics_zero_actuals :
  let m := calculate_accuracy_metrics [0] [0] in
  let m' := calculate_accuracy_metrics [0; 0] [1; 2] in
  is_nan (wmape m) = true /\ is_nan (smape m) = true /\
  r_squared m = 0 /\ mape m = 0 /\
  wmape m' = infinity /\ smape m' = 200.
Proof. vm_compute. repeat split; reflexivity. Qed.

End accuracy.

(** ** Two runs of [generate_forecast] *)

Section repeated_forecast.
Import PyFloat ForecastEngine.
Local Open Scope Q_scope.

Lemma calculate_required_agents_returns exp cv aht tsl tat :
  exists r, ErlangCStaffingModel.calculate_required_agents exp cv aht tsl tat = Ok r.
Proof.
  unfold ErlangCStaffingModel.calculate_required_agents.
  destruct ((cv <=? 0)%Z || Qle_bool aht 0)%bool; [eauto|]. cbv zeta.
  destruct (Qle_bool (inject_Z cv * aht / 60) 0); [eauto|].
  destruct (search_spec exp (inject_Z cv * aht / 60) aht tsl tat
              ErlangCStaffingModel.max_iterations
              (Z.max 1 (Qceiling (inject_Z cv * aht / 60))) None)
    as (A & l & Hs & _); [lia|].
  rewrite Hs. simpl. eauto.
Qed.

Lemma forecast_single_month_returns lib sm fm off scenario bm dec :
  exists r, _forecast_single_month lib sm fm off scenario bm dec = Ok r.
Proof.
  unfold _forecast_single_month. cbv zeta.
  match goal with
  | |- context [ErlangCStaffingModel.calculate_required_agents ?e ?cv ?a ?t ?ta] =>
      destruct (calculate_required_agents_returns e cv a t ta) as [[[A u] sl] ->]
  end.
  simpl. eauto.
Qed.

Lemma forecast_months_loop_returns lib sm scenario bm dec offsets :
  exists rs,
    forecast_months_loop lib sm scenario bm dec offsets = Ok rs /\
    length rs = length offsets.
Proof.
  induction offsets as [|off offsets (rs & IH & Hlen)]; simpl; [eauto|].
  destruct (forecast_single_month_returns lib sm
              (add_months (base_month scenario) off) off scenario bm dec)
    as [r ->].
  simpl. rewrite IH. simpl. exists (r :: rs). split; [reflexivity|].
  simpl. congruence.
Qed.

(** The seasonal indices that a run works with when the cache is off. *)
Definition decomposition_of (lib : Libraries)
    (data : list HistoricalObservation) : gmap Z Q :=
  if (24 <=? length data)%nat then seasonal_fit lib data else flat_indices.

(** With the cache disabled a run is the monthly loop, the simulation on
    the current generator state and the merge; it leaves the cache
    disabled and the generator where the simulation left it. *)
Lemma generate_forecast_disabled lib self scenario data monthly ci rng' merged :
  CacheManager.enabled (cache_manager self) = false ->
  (0 < monte_carlo_iterations scenario)%Z ->
  forecast_months_loop lib SegmentImpactModel.__init__ scenario
    (_calculate_base_metrics data) (decomposition_of lib data)
    (range_from 1 (forecast_months scenario + 1)) = Ok monthly ->
  _run_monte_carlo scenario (_calculate_base_metrics data) (np_random self)
    = Ok (ci, rng') ->
  ConfidenceIntervals._apply_confidence_intervals monthly ci = Ok merged ->
  exists metadata self',
    generate_forecast lib self scenario data = Ok (merged, metadata, self') /\
    np_random self' = rng' /\
    CacheManager.enabled (cache_manager self') = false.
Proof.
  intros Hoff Hit Hloop Hmc Hmerge.
  destruct self as [weights [store ttl en] rng clk].
  cbn [cache_manager CacheManager.enabled] in Hoff. subst en.
  cbn [np_random] in Hmc.
  cbv beta iota zeta delta
    [generate_forecast time_time _perform_seasonal_decomposition
     CacheManager.get_forecast_result CacheManager.get_seasonal_patterns
     CacheManager.cache_forecast_result CacheManager.cache_seasonal_patterns
     CacheManager.get CacheManager.setex with_cache with_rng negb
     cache_manager np_random model_weights clock
     CacheManager.enabled CacheManager.redis CacheManager.default_ttl].
  fold (decomposition_of lib data). rewrite Hloop.
  cbn [mbind res_bind].
  destruct (Z.ltb_spec 0 (monte_carlo_iterations scenario)); [|lia].
  rewrite Hmc. cbn [mbind res_bind]. rewrite Hmerge.
  cbv beta iota zeta delta
    [mbind res_bind negb cache_manager np_random model_weights clock
     CacheManager.enabled CacheManager.redis CacheManager.default_ttl].
  eexists _, _. split; [reflexivity|]. split; reflexivity.
Qed.

(** What a run shows of its simulation, for given monthly results: the
    p10 band of the members of the first month, and the generator state
    that the simulation leaves. *)
Definition first_members_p10 (monthly : list ForecastResult)
    (simulated : res (gmap string (gmap string (list Q)) * rng_state))
  : option Z :=
  match simulated with
  | Ok (ci, _) =>
      match ConfidenceIntervals._apply_confidence_intervals monthly ci with
      | Ok (r :: _) => d ← members_confidence r; d !! "p10"
      | _ => None
      end
  | Raise _ => None
  end.

Definition rng_after
    (simulated : res (gmap string (gmap string (list Q)) * rng_state))
  : option rng_state :=
  match simulated with Ok (_, rng) => Some rng | Raise _ => None end.

Lemma first_members_p10_Some monthly simulated z :
  length monthly = 1%nat ->
  first_members_p10 monthly simulated = Some z ->
  exists ci rng r d,
    simulated = Ok (ci, rng) /\
    ConfidenceIntervals._apply_confidence_intervals monthly ci = Ok [r] /\
    List.map predicted_members [r] = List.map predicted_members monthly /\
    List.map predicted_calls [r] = List.map predicted_calls monthly /\
    List.map required_staff [r] = List.map required_staff monthly /\
    members_confidence r = Some d /\ d !! "p10" = Some z.
Proof.
  intros Hlen H. unfold first_members_p10 in H.
  destruct simulated as [[ci rng]|e]; [|discriminate].
  destruct (ConfidenceIntervals._apply_confidence_intervals monthly ci)
    as [merged|e] eqn:Hm; [|discriminate].
  destruct (apply_from_spec ci monthly 0 merged Hm) as [Hl Hk].
  destruct monthly as [|m0 [|]]; try discriminate Hlen.
  destruct merged as [|r [|]]; try discriminate Hl.
  destruct (members_confidence r) as [d|] eqn:Hd; [|discriminate].
  simpl in H.
  destruct (Hk 0%nat r eq_refl) as (r0 & [= <-] & Hmerged).
  exists ci, rng, r, d. split; [reflexivity|]. split; [exact Hm|].
  assert (Hsame : predicted_members r = predicted_members m0 /\
                  predicted_calls r = predicted_calls m0 /\
                  required_staff r = required_staff m0).
  { clear Hk Hmerged. revert Hm.
    unfold ConfidenceIntervals._apply_confidence_intervals.
    cbn [ConfidenceIntervals.apply_from].
    destruct (0 <? ConfidenceIntervals.simulated_months ci)%nat.
    - intros Hm. apply bind_Ok in Hm. destruct Hm as (r' & Hr' & Hm).
      injection Hm as <-.
      apply bind_Ok in Hr'. destruct Hr' as (m & _ & Hr').
      apply bind_Ok in Hr'. destruct Hr' as (c & _ & Hr').
      apply bind_Ok in Hr'. destruct Hr' as (s & _ & Hr').
      injection Hr' as <-. repeat split; reflexivity.
    - intros [= <-]. repeat split; reflexivity. }
  destruct Hsame as (E1 & E2 & E3). cbn [List.map]. rewrite E1, E2, E3.
  repeat split; assumption.
Qed.

Definition example_history : list HistoricalObservation :=
  [ {| h_date := {| year := 2026; month := 11; day := 1 |};
       total_members := 9800; total_calls := 1450; h_avg_handle_time := 6.1 |};
    {| h_date := {| year := 2026; month := 12; day := 1 |};
       total_members := 10000; total_calls := 1500; h_avg_handle_time := 6.2 |} ].

(** Draws as the generator may hand them out: zeros for the first run's
    300 calls of [np.random.normal], ones afterwards. *)
Definition example_draws : rng_state :=
  fun n => if (n <? 300)%nat then 0 else 1.

Definition example_engine : ForecastEngine.t :=
  ForecastEngine.__init__ example_draws (fun n => inject_Z (Z.of_nat n)).

(** C5.  With Redis switched off nothing is cached, so a second call
    recomputes with fresh draws: both calls return, with the same
    predicted members, calls and staff, but with different confidence
    bands. *)
Theorem generate_forecast_twice_differs (lib : Libraries) :
  exists r1 m1 e1 r2 m2 e2,
    generate_forecast lib example_engine scenario_a example_history
      = Ok (r1, m1, e1) /\
    generate_forecast lib e1 scenario_a example_history = Ok (r2, m2, e2) /\
    List.map predicted_members r1 = List.map predicted_members r2 /\
    List.map predicted_calls r1 = List.map predicted_calls r2 /\
    List.map required_staff r1 = List.map required_staff r2 /\
    List.map members_confidence r1 <> List.map members_confidence r2.
Proof.
  destruct (forecast_months_loop_returns lib SegmentImpactModel.__init__
              scenario_a (_calculate_base_metrics example_history)
              (decomposition_of lib example_history)
              (range_from 1 (forecast_months scenario_a + 1)))
    as (monthly & Hloop & Hlen).
  change (length (range_from 1 (forecast_months scenario_a + 1))) with 1%nat in Hlen.
  set (base := _calculate_base_metrics example_history) in *.
  (* the first run draws the zeros *)
  assert (Hp1 : first_members_p10 monthly
                  (_run_monte_carlo scenario_a base example_draws) = Some 10250%Z).
  { destruct monthly as [|m0 [|]]; try discriminate Hlen.
    vm_compute. reflexivity. }
  eassert (Hr1 : rng_after (_run_monte_carlo scenario_a base example_draws)
                 = Some _) by (vm_compute; reflexivity).
  match type of Hr1 with _ = Some ?r => set (rng1 := r) in * end.
  destruct (first_members_p10_Some _ _ _ Hlen Hp1)
    as (ci1 & rng1' & r1 & d1 & Hmc1 & Hmerge1 & Hpm1 & Hpc1 & Hrs1 & Hd1 & Hz1).
  rewrite Hmc1 in Hr1. injection Hr1 as ->.
  destruct (generate_forecast_disabled lib example_engine scenario_a
              example_history monthly ci1 rng1 [r1] eq_refl eq_refl Hloop Hmc1 Hmerge1)
    as (m1 & e1 & Hrun1 & Hrng1 & Hoff1).
  (* the second run draws the ones *)
  assert (Hp2 : first_members_p10 monthly
                  (_run_monte_carlo scenario_a base rng1) = Some 10350%Z).
  { destruct monthly as [|m0 [|]]; try discriminate Hlen.
    vm_compute. reflexivity. }
  destruct (first_members_p10_Some _ _ _ Hlen Hp2)
    as (ci2 & rng2 & r2 & d2 & Hmc2 & Hmerge2 & Hpm2 & Hpc2 & Hrs2 & Hd2 & Hz2).
  rewrite <- Hrng1 in Hmc2.
  destruct (generate_forecast_disabled lib e1 scenario_a
              example_history monthly ci2 rng2 [r2] Hoff1 eq_refl Hloop Hmc2 Hmerge2)
    as (m2 & e2 & Hrun2 & _ & _).
  exists [r1], m1, e1, [r2], m2, e2.
  split; [exact Hrun1|]. split; [exact Hrun2|].
  split; [congruence|]. split; [congruence|]. split; [congruence|].
  cbn [List.map]. rewrite Hd1, Hd2. intros [= H].
  rewrite H in Hz1. congruence.
Qed.

End repeated_forecast.

(* ===================================================================== *)
(** * Further properties *)
(* ===================================================================== *)

(** ** The staffing model *)

Section staffing_properties.
Import PyFloat ErlangCStaffingModel.
Local Open Scope Q_scope.

Lemma range_head n :
  (1 <= n)%Z -> exists ks, range n = 0%Z :: ks.
Proof.
  intros Hn. unfold range.
  destruct (Z.to_nat n) as [|k] eqn:Hk; [lia|]. simpl. eauto.
Qed.

Lemma erlang_sum_ge_1 agents traffic :
  0 < traffic -> (1 <= agents)%Z ->
  1 <= fold_right Qplus 0 (List.map (erlang_term traffic) (range agents)).
Proof.
  intros HT HA. destruct (range_head agents HA) as [ks ->]. simpl.
  pose proof (erlang_sum_nonneg traffic ks HT) as Hs.
  assert (erlang_term traffic 0 == 1) as -> by reflexivity. lra.
Qed.

Lemma erlang_c_formula_lt_1 agents traffic :
  0 < traffic -> traffic < inject_Z agents ->
  erlang_c_formula agents traffic < 1.
Proof.
  intros HT HA.
  assert (HAz : (1 <= agents)%Z).
  { assert (0 < inject_Z agents) as H by lra.
    rewrite <- (Zlt_Qlt 0) in H. lia. }
  unfold erlang_c_formula. cbv zeta.
  set (top := erlang_term traffic agents
              * (inject_Z agents / (inject_Z agents - traffic))).
  assert (Htop : 0 < top).
  { unfold top. apply Qmult_lt_0_compat; [apply erlang_term_pos, HT|].
    apply Qlt_shift_div_l; lra. }
  pose proof (erlang_sum_ge_1 agents traffic HT HAz) as Hs.
  apply Qlt_shift_div_r; lra.
Qed.

(** X1.  For a stable system the routine returns a probability: a value in
    [0, 1), also when the handler of the overflow has stepped in. *)
Theorem erlang_c_probability_in_unit_interval agents traffic :
  0 < traffic -> traffic < inject_Z agents ->
  exists p, _erlang_c_probability agents traffic = Ok p /\ 0 <= p /\ p < 1.
Proof.
  intros HT HA.
  assert (HAz : (0 <= agents)%Z).
  { assert (0 < inject_Z agents) as H by lra.
    rewrite <- (Zlt_Qlt 0) in H. lia. }
  pose proof (handled_erlang_c_try agents traffic HAz) as Hh.
  unfold _erlang_c_probability.
  destruct (erlang_c_try agents traffic) as [p|e] eqn:Htry.
  - exists p. split; [reflexivity|].
    apply erlang_c_try_Ok in Htry. rewrite Htry.
    pose proof (erlang_c_formula_pos agents traffic HT HA).
    pose proof (erlang_c_formula_lt_1 agents traffic HT HA). lra.
  - destruct e; simpl in Hh; try tauto; exists 0; (split; [reflexivity | lra]).
Qed.

Lemma erlang_c_probability_in_unit_interval_witness :
  0 < 2 /\ 2 < inject_Z 3 /\
  exists p, _erlang_c_probability 3 2 = Ok p /\ 0 <= p /\ p < 1.
Proof.
  split; [reflexivity|]. split; [reflexivity|].
  apply (erlang_c_probability_in_unit_interval 3 2); reflexivity.
Defined.

Lemma floor_lt_Z x (z : Z) : x < inject_Z z -> (Qfloor x < z)%Z.
Proof.
  intros H. pose proof (Qfloor_le x) as Hf.
  assert (inject_Z (Qfloor x) < inject_Z z) as Hlt by lra.
  rewrite <- Zlt_Qlt in Hlt. exact Hlt.
Qed.

Lemma floor_succ_gt x : x < inject_Z (Qfloor x + 1).
Proof. apply Qlt_floor. Qed.

(** X2.  From 171 Erlangs on every candidate overflows, so the search stops at
    the first count above the load and reports a service level of 1,
    whatever the target (up to 1), the answer time and [math.exp]. *)
Theorem large_traffic_stops_at_first_candidate exp cv aht tsl tat :
  (0 < cv)%Z -> 0 < aht ->
  let T := inject_Z cv * aht / 60 in
  171 <= T -> tsl <= 1 ->
  exists u sl,
    calculate_required_agents exp cv aht tsl tat
      = Ok ((Qfloor T + 1)%Z, u, sl) /\ sl == 1.
Proof.
  intros Hcv Haht T HT Htsl.
  destruct (required_agents_search exp cv aht tsl tat Hcv Haht)
    as (A & l & Hc & HTA & Hle & Hmin & Hf).
  fold T in Hc, HTA, Hle, Hmin, Hf.
  set (a0 := (Qfloor T + 1)%Z).
  assert (Ha0 : T < inject_Z a0) by apply floor_succ_gt.
  assert (H171 : (171 <= a0)%Z).
  { assert (171 < inject_Z a0) as H by lra.
    change 171 with (inject_Z 171) in H.
    rewrite <- Zlt_Qlt in H. lia. }
  assert (Hlev : forall B, (171 <= B)%Z -> level_of exp T aht tat B == 1).
  { intros B HB. unfold level_of, erlang_value, prob_within_target_of.
    rewrite (erlang_c_probability_overflow B T HB). ring. }
  assert (Hmeets : meets exp T aht tsl tat a0).
  { unfold meets. rewrite (Hlev a0 H171). exact Htsl. }
  assert (HA : A = a0).
  { pose proof (floor_lt_Z T A HTA) as Hlow.
    destruct (Z.lt_ge_cases a0 A) as [Hlt|Hge]; [|unfold a0 in *; lia].
    exfalso. exact (Hmin a0 Ha0 Hlt Hmeets). }
  subst A.
  assert (Hceil : (a0 < Qceiling T + 100)%Z).
  { pose proof (Qle_floor_ceiling T) as Hfc. rewrite <- Zle_Qle in Hfc.
    unfold a0. lia. }
  destruct (Hf Hceil) as (_ & ->).
  eexists _, _. split; [exact Hc|]. apply Hlev, H171.
Qed.

Lemma large_traffic_stops_at_first_candidate_witness :
  (0 < 2052)%Z /\ 0 < 5 /\ 171 <= inject_Z 2052 * 5 / 60 /\ 0.8 <= 1 /\
  exists u sl,
    calculate_required_agents exp_series 2052 5 0.8 20
      = Ok ((Qfloor (inject_Z 2052 * 5 / 60) + 1)%Z, u, sl) /\ sl == 1.
Proof.
  split; [lia|]. split; [reflexivity|].
  split; [apply Qle_bool_iff; reflexivity|].
  split; [apply Qle_bool_iff; reflexivity|].
  apply (large_traffic_stops_at_first_candidate exp_series 2052 5 0.8 20);
    [lia | reflexivity | apply Qle_bool_iff; reflexivity
     | apply Qle_bool_iff; reflexivity].
Defined.

(** Without calls, or with a handle time that is not positive, the
    function returns the degenerate triple. *)
Lemma calculate_required_agents_degenerate exp cv aht tsl tat :
  (cv <= 0)%Z \/ aht <= 0 ->
  calculate_required_agents exp cv aht tsl tat = Ok (0%Z, 0, 0).
Proof.
  intros H. unfold calculate_required_agents.
  destruct H as [H|H].
  - apply Z.leb_le in H. rewrite H. reflexivity.
  - apply Qle_bool_iff in H. rewrite H. rewrite orb_true_r. reflexivity.
Qed.

End staffing_properties.

(** ** One month of the forecast *)

Section month_properties.
Import PyFloat ForecastEngine.
Local Open Scope Q_scope.

(** X3.  With a positive handle time, as the schema demands, the forecast of a
    month returns; it has at least one supervisor, a utilization within
    [0, 1], at least one agent when calls are predicted and none
    otherwise, and no confidence interval yet. *)
Theorem forecast_single_month_invariants lib sm fm off scenario bm dec :
  0 < avg_handle_time (staffing_parameters scenario) ->
  exists r,
    _forecast_single_month lib sm fm off scenario bm dec = Ok r /\
    (1 <= required_supervisors r)%Z /\
    0 <= agent_utilization r /\ agent_utilization r <= 1 /\
    ((0 < predicted_calls r)%Z -> (1 <= required_staff r)%Z) /\
    ((predicted_calls r <= 0)%Z ->
       required_staff r = 0%Z /\ agent_utilization r == 0
       /\ service_level r == 0) /\
    members_confidence r = None /\ calls_confidence r = None /\
    staff_confidence r = None.
Proof.
  intros Haht. unfold _forecast_single_month. cbv zeta.
  match goal with
  | |- context [ErlangCStaffingModel.calculate_required_agents ?e ?cv ?a ?t ?ta] =>
      set (pc := cv)
  end.
  destruct (Z.lt_ge_cases 0 pc) as [Hpos|Hneg].
  - destruct (required_agents_search (math_exp lib) pc
                (avg_handle_time (staffing_parameters scenario))
                (target_service_level (staffing_parameters scenario))
                (target_answer_time (staffing_parameters scenario)) Hpos Haht)
      as (A & l & -> & HTA & _).
    pose proof (traffic_positive pc _ Hpos Haht) as HT.
    cbn [mbind res_bind]. eexists. split; [reflexivity|].
    cbn [required_supervisors agent_utilization required_staff predicted_calls
         service_level members_confidence calls_confidence staff_confidence].
    assert (HA : 0 < inject_Z A) by lra.
    assert (HAz : (1 <= A)%Z).
    { rewrite <- (Zlt_Qlt 0) in HA. lia. }
    split; [lia|].
    split; [apply Qle_shift_div_l; lra|].
    split; [apply Qle_shift_div_r; lra|].
    split; [intros _; exact HAz|].
    split; [intros H; lia|].
    repeat split.
  - rewrite (calculate_required_agents_degenerate (math_exp lib) pc _ _ _
               (or_introl Hneg)).
    cbn [mbind res_bind]. eexists. split; [reflexivity|].
    cbn [required_supervisors agent_utilization required_staff predicted_calls
         service_level members_confidence calls_confidence staff_confidence].
    split; [lia|]. split; [lra|]. split; [lra|].
    split; [intros H; lia|].
    split; [intros _; repeat split; reflexivity|].
    repeat split.
Qed.

(** Stand-ins for the library routines, for evaluation at concrete
    inputs: the rational exponential, a printer that shows numerator and
    denominator, the identity as digest, no flagged rows, flat seasonal
    indices and a perfect quality score. *)
Definition example_libraries : Libraries :=
  {| math_exp := exp_series;
     float_repr := fun x => pretty (Qnum x) +:+ "/" +:+ pretty (Z.pos (Qden x));
     md5_hexdigest := fun s => s;
     data_bytes := fun data => pretty (Z.of_nat (length data));
     isolation_forest := fun _ => [];
     seasonal_fit := fun _ => flat_indices;
     data_quality := fun _ => 1 |}.

Lemma forecast_single_month_invariants_witness :
  0 < avg_handle_time (staffing_parameters scenario_a) /\
  exists r,
    _forecast_single_month example_libraries SegmentImpactModel.__init__
      (add_months (base_month scenario_a) 1) 1 scenario_a
      (_calculate_base_metrics []) flat_indices = Ok r /\
    (1 <= required_supervisors r)%Z /\
    0 <= agent_utilization r /\ agent_utilization r <= 1.
Proof.
  split; [reflexivity|].
  destruct (forecast_single_month_invariants example_libraries
              SegmentImpactModel.__init__
              (add_months (base_month scenario_a) 1) 1 scenario_a
              (_calculate_base_metrics []) flat_indices)
    as (r & Hr & H1 & H2 & H3 & _); [reflexivity|].
  exists r. split; [exact Hr|]. split; [exact H1|].
  split; [exact H2 | exact H3].
Defined.

End month_properties.

(** ** The segment mix *)

Section segment_properties.
Import PyFloat SegmentImpactModel ForecastEngine.
Local Open Scope Q_scope.

(** Every member count multiplied by [c]. *)
Definition scaled (c : Q) (dist : list (string * Q)) : list (string * Q) :=
  List.map (fun sm => (sm.1, c * sm.2)) dist.

Lemma total_of_scaled c dist : total_of (scaled c dist) == c * total_of dist.
Proof.
  unfold total_of, scaled. induction dist as [|[s m] dist IH]; simpl.
  - ring.
  - simpl in IH. rewrite IH. ring.
Qed.

Lemma reference_sum_scaled rates a c t dist :
  ~ c == 0 -> ~ t == 0 ->
  fold_right Qplus 0
    (List.map (fun sm : string * Q => base_rate_per_1000 rates sm.1
                         * (1 + adjustment_pct a sm.1 / 100)
                         * (sm.2 / (c * t))) (scaled c dist))
  == fold_right Qplus 0
    (List.map (fun sm : string * Q => base_rate_per_1000 rates sm.1
                         * (1 + adjustment_pct a sm.1 / 100)
                         * (sm.2 / t)) dist).
Proof.
  intros Hc Ht. unfold scaled.
  induction dist as [|[s m] dist IH]; simpl; [reflexivity|].
  simpl in IH. rewrite IH. field. split; assumption.
Qed.

Lemma segment_impact_scaled self dist a c :
  ~ c == 0 ->
  calculate_segment_impact self (scaled c dist) a
  == calculate_segment_impact self dist a.
Proof.
  intros Hc.
  destruct (Qeq_dec (total_of dist) 0) as [Hz|Hnz].
  - assert (Hz' : total_of (scaled c dist) == 0).
    { rewrite total_of_scaled, Hz. ring. }
    unfold calculate_segment_impact. cbv zeta.
    rewrite <- sum_values_total in Hz, Hz'.
    apply Qeq_bool_iff in Hz, Hz'. rewrite Hz, Hz'. reflexivity.
  - assert (Hnz' : ~ total_of (scaled c dist) == 0).
    { rewrite total_of_scaled. intros H.
      apply Qmult_integral in H. tauto. }
    rewrite (calculate_segment_impact_nonzero self _ a Hnz').
    rewrite (calculate_segment_impact_nonzero self _ a Hnz).
    unfold segment_impact_reference.
    rewrite (weighted_sum_total _ _ _ _ _ (total_of_scaled c dist)).
    rewrite (reference_sum_scaled _ _ _ _ _ Hc Hnz). reflexivity.
Qed.

(** X4.  The rate depends on the shares only: multiplying every member count
    by one non-zero factor does not change it. *)
Theorem calculate_segment_impact_scale self dist a c :
  ~ c == 0 ->
  calculate_segment_impact self (scaled c dist) a
  == calculate_segment_impact self dist a.
Proof. apply segment_impact_scaled. Qed.

Lemma calculate_segment_impact_scale_witness :
  ~ 41 == 0 /\
  calculate_segment_impact SegmentImpactModel.__init__ (scaled 41 example_distribution) no_adjustments
  == calculate_segment_impact SegmentImpactModel.__init__ example_distribution no_adjustments.
Proof.
  split; [discriminate|].
  apply (calculate_segment_impact_scale SegmentImpactModel.__init__ example_distribution
           no_adjustments 41). discriminate.
Defined.

(** A weighted mean of rates lies between the least and the largest. *)
Lemma weighted_rates_between (f : string -> Q) lo hi t dist :
  (forall s, lo <= f s /\ f s <= hi) ->
  Forall (fun sm => 0 <= sm.2) dist -> 0 < t ->
  lo * (total_of dist / t)
    <= fold_right Qplus 0 (List.map (fun sm : string * Q => f sm.1 * (sm.2 / t)) dist)
  /\ fold_right Qplus 0 (List.map (fun sm : string * Q => f sm.1 * (sm.2 / t)) dist)
    <= hi * (total_of dist / t).
Proof.
  intros Hf Hm Ht. unfold total_of.
  assert (Hit : 0 < / t) by (apply Qinv_lt_0_compat, Ht).
  induction Hm as [|[s m] dist Hm0 _ IH]; simpl in *.
  - unfold Qdiv. split; ring_simplify; lra.
  - destruct (Hf s) as [Hlo Hhi]. destruct IH as [IHl IHh].
    unfold Qdiv in *. set (it := / t) in *.
    assert (0 <= m * it) by nra.
    split; nra.
Qed.

Lemma init_rate_lookup segment :
  base_rate_per_1000 Settings.SEGMENT_CALL_RATES segment =
  if String.eqb segment "Highly Engaged" then 85
  else if String.eqb segment "Reactive Engagers" then 145
  else if String.eqb segment "Content & Complacent" then 95
  else if String.eqb segment "Unengaged" then 180
  else 120.
Proof.
  unfold base_rate_per_1000, Settings.SEGMENT_CALL_RATES.
  destruct (String.eqb_spec segment "Highly Engaged") as [->|H1].
  { rewrite lookup_insert_eq. reflexivity. }
  rewrite lookup_insert_ne by congruence.
  destruct (String.eqb_spec segment "Reactive Engagers") as [->|H2].
  { rewrite lookup_insert_eq. reflexivity. }
  rewrite lookup_insert_ne by congruence.
  destruct (String.eqb_spec segment "Content & Complacent") as [->|H3].
  { rewrite lookup_insert_eq. reflexivity. }
  rewrite lookup_insert_ne by congruence.
  destruct (String.eqb_spec segment "Unengaged") as [->|H4].
  { rewrite lookup_insert_eq. reflexivity. }
  rewrite lookup_insert_ne by congruence.
  rewrite lookup_empty. reflexivity.
Qed.

(** The bounds of the schema on the four adjustments. *)
Definition adjustments_in_bounds (a : SegmentAdjustments) : Prop :=
  -50 <= highly_engaged a /\ highly_engaged a <= 100 /\
  -50 <= reactive_engagers a /\ reactive_engagers a <= 100 /\
  -50 <= content_complacent a /\ content_complacent a <= 100 /\
  -50 <= unengaged a /\ unengaged a <= 100.

Lemma adjusted_rate_bounds a segment :
  adjustments_in_bounds a ->
  42.5 <= base_rate_per_1000 Settings.SEGMENT_CALL_RATES segment
          * (1 + adjustment_pct a segment / 100) /\
  base_rate_per_1000 Settings.SEGMENT_CALL_RATES segment
    * (1 + adjustment_pct a segment / 100) <= 360.
Proof.
  intros (H1 & H2 & H3 & H4 & H5 & H6 & H7 & H8).
  rewrite init_rate_lookup. unfold adjustment_pct, Qdiv.
  change (/ 100) with (1 # 100).
  destruct (String.eqb segment "Highly Engaged"); [lra|].
  destruct (String.eqb segment "Reactive Engagers"); [lra|].
  destruct (String.eqb segment "Content & Complacent"); [lra|].
  destruct (String.eqb segment "Unengaged"); lra.
Qed.

(** X5.  With the configured rates, adjustments within the bounds of the
    schema and non-negative member counts that are not all zero, the
    blended rate lies between 0.0425 and 0.36 calls per member, whatever
    the segments are called. *)
Theorem calculate_segment_impact_bounds dist a :
  adjustments_in_bounds a ->
  Forall (fun sm => 0 <= sm.2) dist -> 0 < total_of dist ->
  0.0425 <= calculate_segment_impact SegmentImpactModel.__init__ dist a /\
  calculate_segment_impact SegmentImpactModel.__init__ dist a <= 0.36.
Proof.
  intros Ha Hm Ht.
  assert (Hnz : ~ total_of dist == 0) by (intros H; rewrite H in Ht; discriminate).
  rewrite (calculate_segment_impact_nonzero SegmentImpactModel.__init__ dist a Hnz).
  unfold segment_impact_reference. cbn [segment_call_rates SegmentImpactModel.__init__].
  destruct (weighted_rates_between
              (fun s => base_rate_per_1000 Settings.SEGMENT_CALL_RATES s
                        * (1 + adjustment_pct a s / 100))
              42.5 360 (total_of dist) dist
              (fun s => adjusted_rate_bounds a s Ha) Hm Ht) as [Hl Hh].
  assert (Hone : total_of dist / total_of dist == 1) by (field; exact Hnz).
  rewrite Hone in Hl, Hh.
  split.
  - apply Qle_shift_div_l; [reflexivity|]. lra.
  - apply Qle_shift_div_r; [reflexivity|]. lra.
Qed.

Lemma calculate_segment_impact_bounds_witness :
  adjustments_in_bounds no_adjustments /\
  Forall (fun sm => 0 <= sm.2) example_distribution /\
  0 < total_of example_distribution /\
  0.0425 <= calculate_segment_impact SegmentImpactModel.__init__ example_distribution no_adjustments /\
  calculate_segment_impact SegmentImpactModel.__init__ example_distribution no_adjustments <= 0.36.
Proof.
  assert (Ha : adjustments_in_bounds no_adjustments).
  { unfold adjustments_in_bounds, no_adjustments. simpl. lra. }
  assert (Hm : Forall (fun sm : string * Q => 0 <= sm.2) example_distribution).
  { unfold example_distribution. repeat constructor; simpl; lra. }
  assert (Ht : 0 < total_of example_distribution) by reflexivity.
  split; [exact Ha|]. split; [exact Hm|]. split; [exact Ht|].
  exact (calculate_segment_impact_bounds example_distribution no_adjustments
           Ha Hm Ht).
Defined.





End segment_properties.

(** ** The adaptive weights *)

Section weight_properties.
Import PyFloat AdaptiveForecastModel.
Local Open Scope Q_scope.












End weight_properties.

(** ** The simulation: draws, errors and empty runs *)

Section simulation_properties.
Import PyFloat Numpy MonteCarloSimulator ConfidenceIntervals.
Local Open Scope Q_scope.

Lemma update_item_inv k f d d' :
  update_item k f d = Ok d' ->
  exists v, d !! k = Some v /\ d' = <[k := PyFloat (f (to_Q v))]> d.
Proof.
  unfold update_item. destruct (d !! k) as [v|]; [|discriminate].
  simpl. intros [= <-]. eauto.
Qed.

Lemma iteration_draws base results rng results' rng' :
  iteration base (results, rng) = Ok (results', rng') ->
  rng' = fun n => rng (3 + n)%nat.
Proof.
  unfold iteration, normal. intros H.
  apply bind_Ok in H. destruct H as (d1 & _ & H).
  apply bind_Ok in H. destruct H as (d2 & _ & H).
  apply bind_Ok in H. destruct H as (d3 & _ & H).
  apply bind_Ok in H. destruct H as (ir & _ & H).
  injection H as _ <-. reflexivity.
Qed.

Lemma iterate_draws base n : forall results rng results' rng',
  iterate base n (results, rng) = Ok (results', rng') ->
  forall k, rng' k = rng (3 * n + k)%nat.
Proof.
  induction n as [|n IH]; intros results rng results' rng' H k.
  - injection H as _ <-. reflexivity.
  - cbn [iterate] in H. apply bind_Ok in H.
    destruct H as ([r1 g1] & H1 & H).
    apply iteration_draws in H1. subst g1.
    rewrite (IH _ _ _ _ H k). f_equal. lia.
Qed.

(** X10.  A simulation of [n] iterations takes exactly [3 n] samples from the
    generator, three per iteration, and leaves the rest in place. *)
Theorem simulation_consumes_three_draws base iterations rng pr rng' :
  run_forecast_simulation base iterations rng = Ok (pr, rng') ->
  forall k, rng' k = rng (3 * Z.to_nat iterations + k)%nat.
Proof.
  unfold run_forecast_simulation. intros H.
  apply bind_Ok in H. destruct H as ([results g] & Hit & H).
  injection H as _ <-. exact (iterate_draws _ _ _ _ _ _ Hit).
Qed.

Lemma simulation_consumes_three_draws_witness :
  exists pr rng',
    run_forecast_simulation example_scenario 100 example_rng = Ok (pr, rng') /\
    forall k, rng' k = example_rng (3 * Z.to_nat 100 + k)%nat.
Proof.
  destruct (run_forecast_simulation example_scenario 100 example_rng)
    as [[pr rng']|e] eqn:Hrun.
  - exists pr, rng'. split; [reflexivity|].
    exact (simulation_consumes_three_draws _ _ _ _ _ Hrun).
  - exfalso.
    assert (Hm : has_metric
                   (run_forecast_simulation example_scenario 100 example_rng)
                   "predicted_members" = true) by (vm_compute; reflexivity).
    rewrite Hrun in Hm. discriminate.
Defined.

(** The three entries that every iteration updates. *)
Definition lacks_updated_entry (base : gmap string pyval) : Prop :=
  base !! "member_growth_rate" = None \/
  base !! "seasonality_factor" = None \/
  base !! "avg_handle_time" = None.

Lemma iteration_key_error base st :
  lacks_updated_entry base -> iteration base st = Raise KeyError.
Proof.
  intros H. destruct st as [results rng]. unfold iteration, normal, update_item.
  destruct (base !! "member_growth_rate") as [v1|] eqn:H1; [|reflexivity].
  cbn [getitem mbind res_bind].
  rewrite lookup_insert_ne by discriminate.
  destruct (base !! "seasonality_factor") as [v2|] eqn:H2; [|reflexivity].
  cbn [getitem mbind res_bind].
  rewrite !lookup_insert_ne by discriminate.
  destruct (base !! "avg_handle_time") as [v3|] eqn:H3; [|reflexivity].
  destruct H as [H|[H|H]]; congruence.
Qed.

(** X11.  A scenario dictionary without one of the three updated entries makes
    the first iteration fail with [KeyError], also when the missing entry
    is the seasonality factor, which the projection never reads. *)
Theorem simulation_key_error base iterations rng :
  lacks_updated_entry base -> (1 <= iterations)%Z ->
  run_forecast_simulation base iterations rng = Raise KeyError.
Proof.
  intros H Hit. unfold run_forecast_simulation.
  destruct (Z.to_nat iterations) as [|n] eqn:Hn; [lia|].
  cbn [iterate]. rewrite (iteration_key_error base _ H). reflexivity.
Qed.

Lemma simulation_key_error_witness :
  lacks_updated_entry (delete "seasonality_factor" example_scenario) /\
  (1 <= 100)%Z /\
  run_forecast_simulation (delete "seasonality_factor" example_scenario)
    100 example_rng = Raise KeyError.
Proof.
  assert (H : lacks_updated_entry (delete "seasonality_factor" example_scenario)).
  { right. left. apply lookup_delete_eq. }
  split; [exact H|]. split; [lia|].
  apply (simulation_key_error _ 100 example_rng H). lia.
Defined.

Lemma apply_from_without_bands ci forecast_results : forall i,
  simulated_months ci = 0%nat ->
  apply_from ci i forecast_results = Ok forecast_results.
Proof.
  induction forecast_results as [|r rest IH]; intros i Hz; [reflexivity|].
  cbn [apply_from]. rewrite Hz. cbn [Nat.ltb Nat.leb mbind res_bind].
  rewrite (IH _ Hz). reflexivity.
Qed.

(** X12.  Bands that say nothing about the members, be it that the metric or
    its p25 array is missing or empty, leave every result as it is,
    whatever they hold for the other metrics. *)
Theorem apply_without_member_bands forecast_results ci :
  simulated_months ci = 0%nat ->
  _apply_confidence_intervals forecast_results ci = Ok forecast_results.
Proof.
  intros Hz. unfold _apply_confidence_intervals.
  apply apply_from_without_bands, Hz.
Qed.

Lemma apply_without_member_bands_witness :
  simulated_months (delete "predicted_members" example_intervals) = 0%nat /\
  _apply_confidence_intervals [example_result; example_result]
    (delete "predicted_members" example_intervals)
  = Ok [example_result; example_result].
Proof.
  assert (H : simulated_months (delete "predicted_members" example_intervals)
              = 0%nat).
  { unfold simulated_months. rewrite lookup_delete_eq. reflexivity. }
  split; [exact H|]. apply apply_without_member_bands, H.
Defined.

(** X13.  Without iterations there are no bands, and the merge of no bands
    changes nothing. *)
Theorem no_iterations_no_bands base iterations rng forecast_results :
  (iterations <= 0)%Z ->
  run_forecast_simulation base iterations rng = Ok (∅, rng) /\
  _apply_confidence_intervals forecast_results ∅ = Ok forecast_results.
Proof.
  intros Hit. split.
  - unfold run_forecast_simulation.
    replace (Z.to_nat iterations) with 0%nat by lia. reflexivity.
  - unfold _apply_confidence_intervals.
    apply apply_from_without_bands. reflexivity.
Qed.

Lemma no_iterations_no_bands_witness :
  (0 <= 0)%Z /\
  run_forecast_simulation example_scenario 0 example_rng = Ok (∅, example_rng) /\
  _apply_confidence_intervals [example_result] ∅ = Ok [example_result].
Proof.
  split; [lia|].
  apply (no_iterations_no_bands example_scenario 0 example_rng [example_result]).
  lia.
Defined.

(** X14.  Member bands for the first month without any band for the calls make
    the merge fail with [KeyError]. *)
Theorem apply_missing_calls_key_error r rest ci m :
  (0 < simulated_months ci)%nat ->
  confidence_dict ci "predicted_members" 0 = Ok m ->
  ci !! "predicted_calls" = None ->
  _apply_confidence_intervals (r :: rest) ci = Raise KeyError.
Proof.
  intros Hn Hm Hc. unfold _apply_confidence_intervals. cbn [apply_from].
  apply Nat.ltb_lt in Hn. rewrite Hn, Hm. cbn [mbind res_bind].
  unfold confidence_dict, band_at. rewrite Hc. reflexivity.
Qed.

Lemma apply_missing_calls_key_error_witness :
  exists m,
    (0 < simulated_months (delete "predicted_calls" example_intervals))%nat /\
    confidence_dict (delete "predicted_calls" example_intervals)
      "predicted_members" 0 = Ok m /\
    delete "predicted_calls" example_intervals !! "predicted_calls" = None /\
    _apply_confidence_intervals [example_result]
      (delete "predicted_calls" example_intervals) = Raise KeyError.
Proof.
  assert (Hn : (0 < simulated_months (delete "predicted_calls" example_intervals))%nat).
  { unfold simulated_months. rewrite lookup_delete_ne by discriminate.
    vm_compute. lia. }
  destruct (confidence_dict (delete "predicted_calls" example_intervals)
              "predicted_members" 0) as [m|e] eqn:Hm.
  2:{ exfalso. revert Hm. unfold confidence_dict, band_at.
      rewrite !lookup_delete_ne by discriminate. vm_compute. discriminate. }
  exists m. split; [exact Hn|]. split; [reflexivity|].
  split; [apply lookup_delete_eq|].
  exact (apply_missing_calls_key_error example_result [] _ m Hn Hm
           (lookup_delete_eq _ _)).
Defined.

End simulation_properties.

(** ** The bands of a simulation and what the merge attaches *)

Section band_properties.
Import PyFloat Numpy MonteCarloSimulator ConfidenceIntervals ForecastEngine.
Local Open Scope Q_scope.


Lemma item_In (s : list Z) i :
  (0 <= i < Z.of_nat (length s))%Z ->
  exists a, In a s /\ item s i = inject_Z a.
Proof.
  intros Hi. exists (nth (Z.to_nat i) s 0%Z). split; [|reflexivity].
  apply nth_In. lia.
Qed.

(** The interpolation is a convex combination of two entries. *)
Lemma interpolate_convex (s : list Z) h :
  s <> [] -> 0 <= h ->
  exists a b t, In a s /\ In b s /\ 0 <= t /\ t <= 1 /\
    interpolate s h == inject_Z a * (1 - t) + inject_Z b * t.
Proof.
  intros Hne H0.
  set (n := Z.of_nat (length s)).
  assert (Hn : (1 <= n)%Z).
  { unfold n. destruct s; [congruence | simpl; lia]. }
  destruct (Qlt_le_dec h (inject_Z (n - 1))) as [Hlt|Hge].
  - destruct (interpolate_below s h H0 Hlt) as (Hf0 & Hf1 & Heq).
    fold n in Hf1.
    destruct (item_In s (Qfloor h)) as (a & Ha & Hia); [fold n; lia|].
    destruct (item_In s (Qfloor h + 1)) as (b & Hb & Hib); [fold n; lia|].
    destruct (floor_bounds h) as [Hl Hu].
    exists a, b, (h - inject_Z (Qfloor h)).
    split; [exact Ha|]. split; [exact Hb|].
    split; [lra|]. split; [lra|].
    rewrite Heq, Hia, Hib. ring.
  - destruct (item_In s (n - 1)) as (a & Ha & Hia); [fold n; lia|].
    exists a, a, 0. split; [exact Ha|]. split; [exact Ha|].
    split; [lra|]. split; [lra|].
    rewrite (interpolate_above s h Hge). fold n. rewrite Hia. ring.
Qed.

Lemma percentile_ge (sample : list Z) q lo :
  sample <> [] -> 0 <= q -> Forall (fun x => (lo <= x)%Z) sample ->
  inject_Z lo <= percentile sample q.
Proof.
  intros Hne Hq Hall. unfold percentile. cbv zeta.
  set (s := merge_sort Z.le sample).
  assert (Hperm : Permutation s sample) by apply merge_sort_Permutation.
  assert (Hs : s <> []).
  { intros E. rewrite E in Hperm. apply Permutation_nil in Hperm. congruence. }
  assert (Hn : (0 <= Z.of_nat (length s) - 1)%Z).
  { destruct s; [congruence | simpl; lia]. }
  assert (Hh : 0 <= inject_Z (Z.of_nat (length s) - 1) * (q / 100)).
  { apply Qmult_le_0_compat.
    - change 0 with (inject_Z 0). rewrite <- Zle_Qle. exact Hn.
    - apply Qle_shift_div_l; [reflexivity | lra]. }
  destruct (interpolate_convex s _ Hs Hh) as (a & b & t & Ha & Hb & Ht0 & Ht1 & ->).
  rewrite Forall_forall in Hall.
  assert (Hla : inject_Z lo <= inject_Z a).
  { rewrite <- Zle_Qle. apply Hall, list_elem_of_In.
    apply (Permutation_in _ Hperm), Ha. }
  assert (Hlb : inject_Z lo <= inject_Z b).
  { rewrite <- Zle_Qle. apply Hall, list_elem_of_In.
    apply (Permutation_in _ Hperm), Hb. }
  nra.
Qed.

Lemma single_iteration_staff scenario ir :
  _single_iteration scenario = Ok ir ->
  exists row, ir !! "required_staff" = Some row /\
    length row = months_of scenario /\ Forall (fun x => (1 <= x)%Z) row.
Proof.
  unfold _single_iteration, months_of. intros H.
  apply bind_Ok in H. destruct H as (months & Hm & H).
  injection H as <-.
  eexists. split; [reflexivity|]. split.
  - rewrite length_map, range_from_length.
    destruct (default (PyInt 12) (scenario !! "forecast_months")) as [n|x];
      [|discriminate].
    injection Hm as ->. f_equal. lia.
  - apply Forall_forall. intros x Hx. apply list_elem_of_In, in_map_iff in Hx.
    destruct Hx as (month & <- & _). apply Z.le_max_l.
Qed.

(** The staff rows collected so far. *)
Definition staff_rows_ok (L : nat) (results : gmap string (list (list Z))) : Prop :=
  forall values, results !! "required_staff" = Some values ->
    Forall (fun row => length row = L /\ Forall (fun x => (1 <= x)%Z) row) values.

Lemma iteration_staff base results rng results' rng' :
  iteration base (results, rng) = Ok (results', rng') ->
  staff_rows_ok (months_of base) results ->
  staff_rows_ok (months_of base) results'.
Proof.
  unfold iteration, normal. intros H Hinv.
  apply bind_Ok in H. destruct H as (d1 & H1 & H).
  apply bind_Ok in H. destruct H as (d2 & H2 & H).
  apply bind_Ok in H. destruct H as (d3 & H3 & H).
  apply bind_Ok in H. destruct H as (ir & Hir & H).
  injection H as <- _.
  apply update_item_inv in H1, H2, H3.
  destruct H1 as (v1 & _ & ->), H2 as (v2 & _ & ->), H3 as (v3 & _ & ->).
  destruct (single_iteration_staff _ _ Hir) as (row & Hrow & Hlen & Hpos).
  assert (HL : months_of
                 (<["avg_handle_time" := PyFloat (to_Q v3 * rng 2%nat)]>
                  (<["seasonality_factor" := PyFloat (to_Q v2 * rng 1%nat)]>
                   (<["member_growth_rate" := PyFloat (to_Q v1 + rng 0%nat)]> base)))
               = months_of base).
  { unfold months_of. rewrite !lookup_insert_ne by discriminate. reflexivity. }
  rewrite HL in Hlen.
  intros values Hv. rewrite map_lookup_imap in Hv.
  destruct (results !! "required_staff") as [old|] eqn:Hold; [|discriminate].
  simpl in Hv. rewrite Hrow in Hv. injection Hv as <-.
  apply Forall_app. split; [apply Hinv; exact Hold|].
  constructor; [split; assumption | constructor].
Qed.

Lemma iterate_staff base n : forall results rng results' rng',
  iterate base n (results, rng) = Ok (results', rng') ->
  staff_rows_ok (months_of base) results ->
  staff_rows_ok (months_of base) results'.
Proof.
  induction n as [|n IH]; intros results rng results' rng' H Hinv.
  - injection H as <- _. exact Hinv.
  - cbn [iterate] in H. apply bind_Ok in H.
    destruct H as ([r1 g1] & H1 & H).
    exact (IH _ _ _ _ H (iteration_staff _ _ _ _ _ H1 Hinv)).
Qed.

Lemma bands_lookup values p arr :
  bands values !! p = Some arr ->
  exists q, 0 <= q /\ arr = percentile_axis0 values q.
Proof.
  unfold bands. intros H.
  repeat (apply lookup_insert_Some in H;
          destruct H as [[_ <-]|[_ H]];
          [eexists; split; [|reflexivity]; apply Qle_bool_iff; reflexivity|]).
  discriminate.
Qed.

(** X15.  Whatever the scenario dictionary and the draws, no percentile of the
    simulated staff is below one agent, in any month. *)
Theorem staff_bands_at_least_one base iterations rng pr rng' pb p arr month x :
  run_forecast_simulation base iterations rng = Ok (pr, rng') ->
  pr !! "required_staff" = Some pb ->
  pb !! p = Some arr -> arr !! month = Some x ->
  1 <= x.
Proof.
  unfold run_forecast_simulation. intros H Hpb Hp Hx.
  apply bind_Ok in H. destruct H as ([results g] & Hit & H).
  injection H as <- _.
  apply lookup_omap_Some in Hpb. destruct Hpb as (values & Hv & Hres).
  assert (Hinv : staff_rows_ok (months_of base) results).
  { apply (iterate_staff _ _ _ _ _ _ Hit).
    intros vs Hvs. injection Hvs as <-. constructor. }
  specialize (Hinv values Hres).
  destruct values as [|row rows]; [discriminate|]. injection Hv as <-.
  apply bands_lookup in Hp. destruct Hp as (q & Hq & ->).
  pose proof (lookup_lt_Some _ _ _ Hx) as Hlt.
  rewrite percentile_axis0_row_length in Hlt.
  apply percentile_axis0_lookup in Hx. destruct Hx as [_ ->].
  change 1 with (inject_Z 1). apply percentile_ge; [discriminate | exact Hq |].
  unfold column. apply Forall_forall. intros y Hy.
  apply list_elem_of_In, in_map_iff in Hy. destruct Hy as (r & <- & Hr).
  rewrite Forall_forall in Hinv.
  destruct (Hinv r (proj2 (list_elem_of_In _ _) Hr)) as [Hlen Hpos].
  assert (Hrow : length row = months_of base).
  { apply (Hinv row). apply list_elem_of_In. left. reflexivity. }
  rewrite Forall_forall in Hpos. apply Hpos, list_elem_of_In, nth_In. lia.
Qed.

Lemma example_ready : simulation_ready example_scenario.
Proof.
  repeat split; try (eexists; reflexivity).
  intros v Hv. injection Hv as <-. eexists; reflexivity.
Qed.

Lemma staff_bands_at_least_one_witness :
  exists pr rng' pb arr,
    run_forecast_simulation example_scenario 100 example_rng = Ok (pr, rng') /\
    pr !! "required_staff" = Some pb /\ pb !! "p10" = Some arr /\
    forall month x, arr !! month = Some x -> 1 <= x.
Proof.
  destruct (run_forecast_simulation_returns example_scenario 100 example_rng
              example_ready ltac:(lia)) as (pr & rng' & Hrun & Hok).
  destruct (Hok "required_staff") as (row & values & Hpb & _).
  { unfold metrics. do 2 (apply elem_of_cons; right).
    apply elem_of_cons. left. reflexivity. }
  exists pr, rng', (bands (row :: values)), (percentile_axis0 (row :: values) 10).
  split; [exact Hrun|]. split; [exact Hpb|]. split; [reflexivity|].
  intros month x Hx.
  exact (staff_bands_at_least_one _ _ _ _ _ _ "p10" _ month x Hrun Hpb eq_refl Hx).
Defined.

(** [int(x)] keeps the order. *)
Lemma int_of_float_mono x y : x <= y -> (int_of_float x <= int_of_float y)%Z.
Proof.
  intros Hxy. unfold int_of_float.
  destruct (Qle_bool 0 x) eqn:Hx, (Qle_bool 0 y) eqn:Hy.
  - apply Qfloor_resp_le, Hxy.
  - apply Qle_bool_iff in Hx.
    assert (Hy' : ~ 0 <= y) by (rewrite <- Qle_bool_iff, Hy; discriminate).
    lra.
  - apply Qle_bool_iff in Hy.
    assert (Hx' : ~ 0 <= x) by (rewrite <- Qle_bool_iff, Hx; discriminate).
    transitivity 0%Z.
    + change 0%Z with (Qceiling 0). apply Qceiling_resp_le. lra.
    + change 0%Z with (Qfloor 0). apply Qfloor_resp_le, Hy.
  - apply Qceiling_resp_le, Hxy.
Qed.

Lemma band_at_inv ci metric p i z :
  band_at ci metric p i = Ok z ->
  exists pb arr x, ci !! metric = Some pb /\ pb !! p = Some arr /\
                   arr !! i = Some x /\ z = int_of_float x.
Proof.
  unfold band_at. intros H.
  destruct (ci !! metric) as [pb|]; [|discriminate]. cbn [getitem mbind res_bind] in H.
  destruct (pb !! p) as [arr|] eqn:Hp; [|discriminate].
  cbn [getitem mbind res_bind] in H.
  destruct (arr !! i) as [x|] eqn:Hx; [|discriminate].
  cbn [getitem mbind res_bind] in H. injection H as <-.
  exists pb, arr, x. auto.
Qed.

(** An attached dictionary with its four values in order. *)
Definition ordered_dict (d : gmap string Z) : Prop :=
  exists p10 p25 p75 p90,
    d !! "p10" = Some p10 /\ d !! "p25" = Some p25 /\
    d !! "p75" = Some p75 /\ d !! "p90" = Some p90 /\
    (p10 <= p25 <= p75 /\ p75 <= p90)%Z.

Lemma confidence_dict_ordered ci metric i d :
  (forall pb, ci !! metric = Some pb -> ordered_bands pb) ->
  confidence_dict ci metric i = Ok d -> ordered_dict d.
Proof.
  intros Hord H. unfold confidence_dict in H.
  apply bind_Ok in H. destruct H as (z10 & H10 & H).
  apply bind_Ok in H. destruct H as (z25 & H25 & H).
  apply bind_Ok in H. destruct H as (z75 & H75 & H).
  apply bind_Ok in H. destruct H as (z90 & H90 & H).
  injection H as <-.
  apply band_at_inv in H10, H25, H75, H90.
  destruct H10 as (pb & a10 & x10 & Hpb & Ha10 & Hx10 & ->).
  destruct H25 as (pb' & a25 & x25 & Hpb' & Ha25 & Hx25 & ->).
  rewrite Hpb in Hpb'. injection Hpb' as <-.
  destruct H75 as (pb' & a75 & x75 & Hpb' & Ha75 & Hx75 & ->).
  rewrite Hpb in Hpb'. injection Hpb' as <-.
  destruct H90 as (pb' & a90 & x90 & Hpb' & Ha90 & Hx90 & ->).
  rewrite Hpb in Hpb'. injection Hpb' as <-.
  destruct (Hord pb Hpb)
    as (p10 & p25 & med & p75 & p90 & E10 & E25 & _ & E75 & E90 & Hmono).
  rewrite Ha10 in E10. injection E10 as <-.
  rewrite Ha25 in E25. injection E25 as <-.
  rewrite Ha75 in E75. injection E75 as <-.
  rewrite Ha90 in E90. injection E90 as <-.
  destruct (Hmono i x10 Hx10) as (b & c & d & e & Eb & _ & Ed & Ee & L1 & L2 & L3 & L4).
  rewrite Hx25 in Eb. injection Eb as <-.
  rewrite Hx75 in Ed. injection Ed as <-.
  rewrite Hx90 in Ee. injection Ee as <-.
  exists (int_of_float x10), (int_of_float x25), (int_of_float x75),
         (int_of_float x90).
  do 4 (split; [reflexivity|]).
  repeat split; apply int_of_float_mono; lra.
Qed.

(** What the merge writes at an index within the simulated months. *)
Lemma apply_from_values ci forecast_results : forall i results',
  apply_from ci i forecast_results = Ok results' ->
  forall k r', results' !! k = Some r' ->
    (i + k < simulated_months ci)%nat ->
    exists r m c s,
      forecast_results !! k = Some r /\
      confidence_dict ci "predicted_members" (i + k) = Ok m /\
      confidence_dict ci "predicted_calls" (i + k) = Ok c /\
      confidence_dict ci "required_staff" (i + k) = Ok s /\
      r' = set_confidence r m c s.
Proof.
  induction forecast_results as [|result rest IH]; intros i results' H k r' Hk Hlt.
  - injection H as <-. discriminate.
  - cbn [apply_from] in H.
    apply bind_Ok in H. destruct H as (result' & Hres & H).
    apply bind_Ok in H. destruct H as (rest' & Hrest & H).
    injection H as <-.
    destruct k as [|k].
    + injection Hk as <-. rewrite Nat.add_0_r in *.
      apply Nat.ltb_lt in Hlt. rewrite Hlt in Hres.
      apply bind_Ok in Hres. destruct Hres as (m & Hm & Hres).
      apply bind_Ok in Hres. destruct Hres as (c & Hc & Hres).
      apply bind_Ok in Hres. destruct Hres as (s & Hs & Hres).
      injection Hres as <-.
      exists result, m, c, s. auto.
    + replace (i + S k)%nat with (S i + k)%nat in * by lia.
      destruct (IH _ _ Hrest k r' Hk Hlt) as (r & m & c & s & Hr & Hm & Hc & Hs & ->).
      exists r, m, c, s. auto.
Qed.

Lemma simulation_bands_ordered base iterations rng pr rng' metric pb :
  run_forecast_simulation base iterations rng = Ok (pr, rng') ->
  pr !! metric = Some pb -> ordered_bands pb.
Proof.
  unfold run_forecast_simulation. intros Hrun Hpb.
  apply bind_Ok in Hrun. destruct Hrun as ([results g] & _ & Hrun).
  injection Hrun as <- _.
  apply lookup_omap_Some in Hpb. destruct Hpb as (values & Hv & _).
  destruct values; [discriminate|]. injection Hv as <-.
  apply bands_ordered.
Qed.

(** X16.  The whole numbers attached to a result within the simulated months
    are in order, p10 <= p25 <= p75 <= p90, for each of the three
    metrics, and the other fields of the result are kept. *)
Theorem attached_bands_ordered
    base iterations rng pr rng' forecast_results results' i r' :
  run_forecast_simulation base iterations rng = Ok (pr, rng') ->
  _apply_confidence_intervals forecast_results pr = Ok results' ->
  results' !! i = Some r' -> (i < simulated_months pr)%nat ->
  exists r m c s,
    forecast_results !! i = Some r /\ r' = set_confidence r m c s /\
    ordered_dict m /\ ordered_dict c /\ ordered_dict s.
Proof.
  intros Hrun Happly Hi Hlt.
  assert (Hord : forall metric pb, pr !! metric = Some pb -> ordered_bands pb).
  { intros metric pb. exact (simulation_bands_ordered _ _ _ _ _ _ _ Hrun). }
  destruct (apply_from_values pr forecast_results 0 results' Happly i r' Hi Hlt)
    as (r & m & c & s & Hr & Hm & Hc & Hs & ->).
  exists r, m, c, s. split; [exact Hr|]. split; [reflexivity|].
  repeat split; eapply confidence_dict_ordered; eauto.
Qed.

Lemma attached_bands_ordered_witness :
  exists pr rng' r',
    run_forecast_simulation example_scenario 100 example_rng = Ok (pr, rng') /\
    _apply_confidence_intervals [example_result] pr = Ok [r'] /\
    (0 < simulated_months pr)%nat /\
    exists m c s,
      r' = set_confidence example_result m c s /\
      ordered_dict m /\ ordered_dict c /\ ordered_dict s.
Proof.
  destruct (run_forecast_simulation_returns example_scenario 100 example_rng
              example_ready ltac:(lia)) as (pr & rng' & Hrun & Hok).
  destruct (apply_confidence_intervals_returns _ pr [example_result] Hok)
    as [results' Happly].
  pose proof (proj1 (apply_from_spec _ _ _ _ Happly)) as Hlen.
  destruct results' as [|r' [|]];
    [discriminate Hlen | | discriminate Hlen].
  assert (Hn : (0 < simulated_months pr)%nat).
  { rewrite (bands_ok_simulated_months _ _ Hok). vm_compute. lia. }
  exists pr, rng', r'. split; [exact Hrun|]. split; [exact Happly|].
  split; [exact Hn|].
  destruct (attached_bands_ordered _ _ _ _ _ _ _ 0%nat r' Hrun Happly eq_refl Hn)
    as (r & m & c & s & Hr & -> & Hm & Hc & Hs).
  injection Hr as <-. exists m, c, s. auto.
Defined.

End band_properties.

(** ** A whole run of the engine *)

Section engine_properties.
Import PyFloat Numpy MonteCarloSimulator ConfidenceIntervals ForecastEngine.
Local Open Scope Q_scope.

Lemma base_scenario_ready scenario bm :
  simulation_ready (base_scenario_dict scenario bm).
Proof.
  unfold simulation_ready, base_scenario_dict. repeat split.
  - rewrite lookup_insert_ne by discriminate. rewrite lookup_insert_eq. eauto.
  - rewrite !lookup_insert_ne by discriminate. rewrite lookup_insert_eq. eauto.
  - do 4 (rewrite lookup_insert_ne by discriminate).
    rewrite lookup_insert_eq. eauto.
  - intros v. rewrite lookup_insert_eq. intros [= <-]. eauto.
Qed.

Lemma months_of_base_scenario scenario bm :
  months_of (base_scenario_dict scenario bm)
  = Z.to_nat (forecast_months scenario).
Proof.
  unfold months_of, base_scenario_dict. rewrite lookup_insert_eq. reflexivity.
Qed.

(** The parts of a run with the cache off and at least one iteration. *)
Lemma generate_forecast_structure lib self scenario data :
  CacheManager.enabled (cache_manager self) = false ->
  (1 <= monte_carlo_iterations scenario)%Z ->
  exists monthly pr rng' merged metadata self',
    forecast_months_loop lib SegmentImpactModel.__init__ scenario
      (_calculate_base_metrics data) (decomposition_of lib data)
      (range_from 1 (forecast_months scenario + 1)) = Ok monthly /\
    length monthly = Z.to_nat (forecast_months scenario) /\
    _run_monte_carlo scenario (_calculate_base_metrics data) (np_random self)
      = Ok (pr, rng') /\
    bands_ok (Z.to_nat (forecast_months scenario)) pr /\
    _apply_confidence_intervals monthly pr = Ok merged /\
    generate_forecast lib self scenario data = Ok (merged, metadata, self') /\
    np_random self' = rng' /\
    CacheManager.enabled (cache_manager self') = false.
Proof.
  intros Hoff Hit.
  destruct (forecast_months_loop_returns lib SegmentImpactModel.__init__
              scenario (_calculate_base_metrics data) (decomposition_of lib data)
              (range_from 1 (forecast_months scenario + 1)))
    as (monthly & Hloop & Hlen).
  rewrite range_from_length in Hlen.
  replace (Z.to_nat (forecast_months scenario + 1 - 1))
    with (Z.to_nat (forecast_months scenario)) in Hlen by (f_equal; lia).
  destruct (run_forecast_simulation_returns
              (base_scenario_dict scenario (_calculate_base_metrics data))
              (monte_carlo_iterations scenario) (np_random self)
              (base_scenario_ready _ _) Hit) as (pr & rng' & Hmc & Hok).
  rewrite months_of_base_scenario in Hok.
  destruct (apply_confidence_intervals_returns _ pr monthly Hok)
    as [merged Hmerge].
  destruct (generate_forecast_disabled lib self scenario data monthly pr rng'
              merged Hoff ltac:(lia) Hloop Hmc Hmerge)
    as (metadata & self' & Hrun & Hrng & Hoff').
  exists monthly, pr, rng', merged, metadata, self'.
  repeat split; assumption.
Qed.

(** X17.  With the cache off, as in a fresh engine, and at least one iteration,
    a run returns one result per forecast month; every result carries
    the three confidence dictionaries, each with p10 <= p25 <= p75 <= p90;
    the run takes three samples per iteration from the generator and
    leaves the cache off. *)
Theorem generate_forecast_complete lib self scenario data :
  CacheManager.enabled (cache_manager self) = false ->
  (1 <= monte_carlo_iterations scenario)%Z ->
  exists results metadata self',
    generate_forecast lib self scenario data = Ok (results, metadata, self') /\
    length results = Z.to_nat (forecast_months scenario) /\
    (forall i r, results !! i = Some r ->
       exists m c s,
         members_confidence r = Some m /\ calls_confidence r = Some c /\
         staff_confidence r = Some s /\
         ordered_dict m /\ ordered_dict c /\ ordered_dict s) /\
    (forall k, np_random self' k
               = np_random self
                   (3 * Z.to_nat (monte_carlo_iterations scenario) + k)%nat) /\
    CacheManager.enabled (cache_manager self') = false.
Proof.
  intros Hoff Hit.
  destruct (generate_forecast_structure lib self scenario data Hoff Hit)
    as (monthly & pr & rng' & merged & metadata & self'
        & Hloop & Hlen & Hmc & Hok & Hmerge & Hrun & Hrng & Hoff').
  exists merged, metadata, self'. split; [exact Hrun|].
  destruct (apply_from_spec _ _ _ _ Hmerge) as [Hl _].
  split; [congruence|]. split; [|split; [|exact Hoff']].
  - intros i r Hi.
    assert (Hlt : (0 + i < simulated_months pr)%nat).
    { rewrite (bands_ok_simulated_months _ _ Hok), <- Hlen, <- Hl.
      apply lookup_lt_Some in Hi. exact Hi. }
    destruct (apply_from_values pr monthly 0 merged Hmerge i r Hi Hlt)
      as (r0 & m & c & s & _ & Hm & Hc & Hs & ->).
    exists m, c, s. do 3 (split; [reflexivity|]).
    unfold _run_monte_carlo in Hmc.
    repeat split; eapply confidence_dict_ordered; eauto;
      intros pb Hpb; eapply simulation_bands_ordered; eauto.
  - intros k. rewrite Hrng. unfold _run_monte_carlo, run_forecast_simulation in Hmc.
    apply bind_Ok in Hmc. destruct Hmc as ([results g] & Hiter & Hmc).
    injection Hmc as _ <-. exact (iterate_draws _ _ _ _ _ _ Hiter k).
Qed.

Lemma generate_forecast_complete_witness :
  exists results metadata self',
    generate_forecast example_libraries example_engine scenario_a example_history
      = Ok (results, metadata, self') /\
    length results = Z.to_nat (forecast_months scenario_a) /\
    (forall k, np_random self' k = np_random example_engine (3 * 100 + k)%nat).
Proof.
  destruct (generate_forecast_complete example_libraries example_engine
              scenario_a example_history eq_refl ltac:(simpl; lia))
    as (results & metadata & self' & Hrun & Hlen & _ & Hrng & _).
  exists results, metadata, self'.
  split; [exact Hrun|]. split; [exact Hlen | exact Hrng].
Defined.



Lemma forecast_single_month_point lib sm fm off scenario bm dec r :
  _forecast_single_month lib sm fm off scenario bm dec = Ok r ->
  fr_month r = strftime_Y_m fm /\
  predicted_members r
  = int_of_float (base_members bm * (1 + member_growth_rate scenario / 100) ^ off).
Proof.
  unfold _forecast_single_month. cbv zeta. intros H.
  apply bind_Ok in H. destruct H as ([[A u] sl] & _ & H).
  injection H as <-. split; reflexivity.
Qed.



(** X19.  The monthly point forecast reads the history only through the latest
    member count and the seasonal indices: base metrics that agree on
    the members give the same results, whatever they say about calls per
    member, handle time and growth trend. *)
Theorem forecast_ignores_other_base_metrics
    lib sm scenario bm1 bm2 dec offsets :
  base_members bm1 = base_members bm2 ->
  forecast_months_loop lib sm scenario bm1 dec offsets
  = forecast_months_loop lib sm scenario bm2 dec offsets.
Proof.
  intros Hm.
  induction offsets as [|off offsets IH]; [reflexivity|].
  cbn [forecast_months_loop]. rewrite IH.
  unfold _forecast_single_month. rewrite Hm. reflexivity.
Qed.

Lemma forecast_ignores_other_base_metrics_witness :
  forecast_months_loop example_libraries SegmentImpactModel.__init__ scenario_a
    (_calculate_base_metrics []) flat_indices [1; 2]%Z
  = forecast_months_loop example_libraries SegmentImpactModel.__init__ scenario_a
      {| base_members := 10000; base_calls_per_member := 0.5;
         base_handle_time := 9; growth_trend := 0.2 |} flat_indices [1; 2]%Z.
Proof.
  apply forecast_ignores_other_base_metrics. reflexivity.
Defined.

(** X20.  With a growth rate that is not negative and a member base that is
    not negative, the predicted members never fall from one month offset
    to a later one. *)
Theorem predicted_members_grow
    lib sm fm1 fm2 off1 off2 scenario bm dec r1 r2 :
  0 <= base_members bm -> 0 <= member_growth_rate scenario ->
  (off1 <= off2)%Z ->
  _forecast_single_month lib sm fm1 off1 scenario bm dec = Ok r1 ->
  _forecast_single_month lib sm fm2 off2 scenario bm dec = Ok r2 ->
  (predicted_members r1 <= predicted_members r2)%Z.
Proof.
  intros Hb Hg Hoffs H1 H2.
  apply forecast_single_month_point in H1, H2.
  destruct H1 as [_ ->], H2 as [_ ->].
  apply int_of_float_mono.
  assert (H1g : 1 <= 1 + member_growth_rate scenario / 100).
  { assert (0 <= member_growth_rate scenario / 100)
      by (apply Qle_shift_div_l; [reflexivity | lra]).
    lra. }
  pose proof (Qpower_le_compat_l _ _ _ Hoffs H1g) as Hp.
  nra.
Qed.

Lemma predicted_members_grow_witness :
  exists r1 r2,
    _forecast_single_month example_libraries SegmentImpactModel.__init__
      (add_months (base_month scenario_a) 1) 1 scenario_a
      (_calculate_base_metrics []) flat_indices = Ok r1 /\
    _forecast_single_month example_libraries SegmentImpactModel.__init__
      (add_months (base_month scenario_a) 2) 2 scenario_a
      (_calculate_base_metrics []) flat_indices = Ok r2 /\
    (predicted_members r1 <= predicted_members r2)%Z.
Proof.
  destruct (forecast_single_month_returns example_libraries
              SegmentImpactModel.__init__
              (add_months (base_month scenario_a) 1) 1 scenario_a
              (_calculate_base_metrics []) flat_indices) as [r1 H1].
  destruct (forecast_single_month_returns example_libraries
              SegmentImpactModel.__init__
              (add_months (base_month scenario_a) 2) 2 scenario_a
              (_calculate_base_metrics []) flat_indices) as [r2 H2].
  exists r1, r2. split; [exact H1|]. split; [exact H2|].
  assert (Hb : 0 <= base_members (_calculate_base_metrics []))
    by (apply Qle_bool_iff; reflexivity).
  assert (Hg : 0 <= member_growth_rate scenario_a)
    by (apply Qle_bool_iff; reflexivity).
  assert (Ho : (1 <= 2)%Z) by lia.
  exact (predicted_members_grow _ _ _ _ 1 2 _ _ _ r1 r2 Hb Hg Ho H1 H2).
Defined.

End engine_properties.

(** ** What the simulation does not read *)

Section seasonality_properties.
Import PyFloat MonteCarloSimulator.
Local Open Scope Q_scope.

Lemma single_iteration_ext d d' :
  d !! "forecast_months" = d' !! "forecast_months" ->
  d !! "base_members" = d' !! "base_members" ->
  d !! "member_growth_rate" = d' !! "member_growth_rate" ->
  d !! "calls_per_member" = d' !! "calls_per_member" ->
  d !! "avg_handle_time" = d' !! "avg_handle_time" ->
  _single_iteration d = _single_iteration d'.
Proof.
  intros H1 H2 H3 H4 H5. unfold _single_iteration.
  rewrite H1, H2, H3, H4, H5. reflexivity.
Qed.

Ltac lookup_inserts :=
  repeat first [ rewrite lookup_insert_eq
               | rewrite lookup_insert_ne by discriminate ];
  reflexivity.

Lemma iteration_ignores_seasonality base v st :
  is_Some (base !! "seasonality_factor") ->
  iteration (<["seasonality_factor" := v]> base) st = iteration base st.
Proof.
  intros [v0 Hv0]. destruct st as [results rng].
  unfold iteration, normal, update_item.
  rewrite (lookup_insert_ne base "seasonality_factor" "member_growth_rate")
    by discriminate.
  destruct (base !! "member_growth_rate") as [v1|] eqn:H1; [|reflexivity].
  cbn [getitem mbind res_bind].
  rewrite !(lookup_insert_ne _ "member_growth_rate" "seasonality_factor")
    by discriminate.
  rewrite lookup_insert_eq, Hv0. cbn [getitem mbind res_bind].
  rewrite !lookup_insert_ne by discriminate.
  destruct (base !! "avg_handle_time") as [v3|] eqn:H3; [|reflexivity].
  cbn [getitem mbind res_bind].
  match goal with
  | |- _single_iteration ?d' ≫= _ = _single_iteration ?d ≫= _ =>
      rewrite (single_iteration_ext d' d) by lookup_inserts
  end.
  reflexivity.
Qed.

Lemma iterate_ignores_seasonality base v n : forall st,
  is_Some (base !! "seasonality_factor") ->
  iterate (<["seasonality_factor" := v]> base) n st = iterate base n st.
Proof.
  induction n as [|n IH]; intros st Hs; [reflexivity|].
  cbn [iterate]. rewrite (iteration_ignores_seasonality base v st Hs).
  destruct (iteration base st) as [st'|e]; [|reflexivity].
  cbn [mbind res_bind]. apply IH, Hs.
Qed.

(** X21.  The seasonality factor of the scenario dictionary must be present but
    its value never reaches the bands: the simulation returns the same
    bands, and the same generator state, for every value of it. *)
Theorem simulation_ignores_seasonality base v iterations rng :
  is_Some (base !! "seasonality_factor") ->
  run_forecast_simulation (<["seasonality_factor" := v]> base) iterations rng
  = run_forecast_simulation base iterations rng.
Proof.
  intros Hs. unfold run_forecast_simulation.
  rewrite (iterate_ignores_seasonality base v _ _ Hs). reflexivity.
Qed.

Lemma simulation_ignores_seasonality_witness :
  run_forecast_simulation
    (<["seasonality_factor" := PyFloat 3]> example_scenario) 100 example_rng
  = run_forecast_simulation example_scenario 100 example_rng.
Proof.
  apply simulation_ignores_seasonality. eexists. reflexivity.
Defined.

End seasonality_properties.

(** ** The cache manager *)

Section cache_properties.
Import CacheManager CacheSession.
Context {V : Type}.

Lemma perform_disabled (self : t V) c :
  enabled self = false -> perform self c = self.
Proof.
  intros H. destruct c; simpl;
    unfold connect, cache_forecast_result, cache_seasonal_patterns,
      cache_model_weights, setex; rewrite H; reflexivity.
Qed.

(** X22.  A manager as [CacheManager()] builds it stays as it is under every
    sequence of [connect] and cache writes, and every read of it returns
    [None]: nothing is ever stored. *)
Theorem cache_never_stores (calls : list (call V)) :
  let self := fold_left perform calls (__init__ (V := V)) in
  self = __init__ /\
  forall key, get_forecast_result self key = None /\
              get_seasonal_patterns self key = None /\
              get_model_weights self key = None.
Proof.
  cbv zeta.
  assert (H : fold_left perform calls (__init__ (V := V)) = __init__).
  { induction calls as [|c calls IH] using rev_ind; [reflexivity|].
    rewrite fold_left_app. simpl. rewrite IH.
    apply perform_disabled. reflexivity. }
  rewrite H. split; [reflexivity|]. intros key. repeat split.
Qed.

(** X23.  On a manager that is enabled and connected, a forecast result that is
    cached under a hash is what a read under that hash returns; reads
    under other hashes, and reads of seasonal patterns and model weights,
    are as before. *)
Theorem cache_forecast_round_trip (self : t V) store scenario_hash result :
  enabled self = true -> redis self = Some store ->
  let self' := cache_forecast_result self scenario_hash result in
  get_forecast_result self' scenario_hash = Some result /\
  (forall h, h <> scenario_hash ->
     get_forecast_result self' h = get_forecast_result self h) /\
  (forall h, get_seasonal_patterns self' h = get_seasonal_patterns self h) /\
  (forall h, get_model_weights self' h = get_model_weights self h).
Proof.
  intros He Hr. cbv zeta.
  destruct self as [r ttl en]. cbn [enabled redis] in He, Hr. subst en r.
  unfold get_forecast_result, get_seasonal_patterns, get_model_weights,
    cache_forecast_result, get, setex.
  cbn [negb enabled redis].
  split; [apply lookup_insert_eq|]. split; [|split].
  - intros h Hh. apply lookup_insert_ne.
    intros E. apply Hh. simpl in E. injection E as E. symmetry. exact E.
  - intros h. apply lookup_insert_ne. discriminate.
  - intros h. apply lookup_insert_ne. discriminate.
Qed.

End cache_properties.

Lemma cache_forecast_round_trip_witness :
  let self : CacheManager.t Z :=
    {| CacheManager.redis := Some ∅; CacheManager.default_ttl := 3600;
       CacheManager.enabled := true |} in
  CacheManager.get_forecast_result
    (CacheManager.cache_forecast_result self "abc" 7%Z) "abc" = Some 7%Z.
Proof.
  exact (proj1 (cache_forecast_round_trip
                  {| CacheManager.redis := Some ∅;
                     CacheManager.default_ttl := 3600;
                     CacheManager.enabled := true |}
                  ∅ "abc" 7%Z eq_refl eq_refl)).
Defined.

(** ** The growth trend of the history *)

Section growth_properties.
Import PyFloat ForecastEngine.
Local Open Scope Q_scope.

(** Member counts that are positive and grow by the rate [g] from each
    period to the next. *)
Fixpoint constant_growth (g : Q) (members : list Q) : Prop :=
  match members with
  | prev :: ((cur :: _) as rest) =>
      0 < prev /\ cur == prev * (1 + g) /\ constant_growth g rest
  | _ => True
  end.

Lemma growth_rates_constant g members :
  constant_growth g members ->
  Forall (fun r => r == g) (growth_rates members) /\
  length (growth_rates members) = (length members - 1)%nat.
Proof.
  induction members as [|prev rest IH]; [split; [constructor | reflexivity]|].
  destruct rest as [|cur rest]; [split; [constructor | reflexivity]|].
  intros (Hp & Hc & Hrest). destruct (IH Hrest) as [IHa IHl].
  change (growth_rates (prev :: cur :: rest))
    with (if Qlt_bool 0 prev
          then (cur - prev) / prev :: growth_rates (cur :: rest)
          else growth_rates (cur :: rest)).
  unfold Qlt_bool.
  destruct (Qle_bool prev 0) eqn:Hle.
  { apply Qle_bool_iff in Hle. lra. }
  cbn [negb]. split.
  - constructor; [|exact IHa]. rewrite Hc. field. lra.
  - change (length ((cur - prev) / prev :: growth_rates (cur :: rest)))
      with (S (length (growth_rates (cur :: rest)))).
    rewrite IHl. simpl. lia.
Qed.

Lemma sum_constant g rates :
  Forall (fun r => r == g) rates ->
  fold_right Qplus 0 rates == inject_Z (Z.of_nat (length rates)) * g.
Proof.
  induction 1 as [|r rates Hr _ IH]; [simpl; ring|].
  cbn [fold_right length]. rewrite IH, Hr, Nat2Z.inj_succ.
  unfold Z.succ. rewrite inject_Z_plus. ring.
Qed.

(** X24.  A history of at least three periods whose members are positive and
    grow by the same rate [g] in every period has growth trend [g]. *)
Theorem growth_trend_constant_rate g (data : list HistoricalObservation) :
  (3 <= length data)%nat ->
  constant_growth g (List.map total_members data) ->
  _calculate_growth_trend data == g.
Proof.
  intros Hlen Hg. unfold _calculate_growth_trend.
  destruct (Nat.ltb_spec (length data) 3) as [Hlt|_]; [lia|].
  destruct (growth_rates_constant g _ Hg) as [Hall Hl].
  rewrite length_map in Hl.
  destruct (growth_rates (List.map total_members data)) as [|r rates] eqn:E.
  { simpl in Hl. lia. }
  rewrite sum_fold_right, (sum_constant g _ Hall).
  set (n := inject_Z (Z.of_nat (length (r :: rates)))).
  assert (Hn : 0 < n).
  { unfold n. change 0 with (inject_Z 0). rewrite <- Zlt_Qlt.
    cbn [length]. lia. }
  field. lra.
Qed.

Definition growing_history : list HistoricalObservation :=
  List.map (fun m => {| h_date := {| year := 2026; month := 1; day := 1 |};
                        total_members := m; total_calls := 1500;
                        h_avg_handle_time := 6 |})
    [10000; 11000; 12100; 13310].

Lemma growth_trend_constant_rate_witness :
  (3 <= length growing_history)%nat /\
  constant_growth 0.1 (List.map total_members growing_history) /\
  _calculate_growth_trend growing_history == 0.1.
Proof.
  assert (Hl : (3 <= length growing_history)%nat) by (simpl; lia).
  assert (Hg : constant_growth 0.1 (List.map total_members growing_history)).
  { simpl. repeat split. }
  split; [exact Hl|]. split; [exact Hg|].
  exact (growth_trend_constant_rate 0.1 growing_history Hl Hg).
Defined.

End growth_properties.
